(** * FAQ bot: response resolution and escalation to the administrator

    A shallow embedding of [faq_bot/bot/nlp_manager.py],
    [faq_bot/bot/bot_manager.py], [faq_bot/bot/smtp_config.py] and
    [faq_bot/bot/views.py], followed by the properties proved about it.

    Python [str] values are carried as [string] (their UTF-8 bytes), the two
    dictionaries as a [gmap] (the bot's [db], never iterated) and as an
    insertion-ordered association list (the administrator's
    [unanswered_queries], whose keys are listed).  What the program obtains
    from outside the repository -- [str.lower] on user text, the spaCy
    pipeline, the SMTP session -- is a member of the class [Externals]. *)

From Stdlib Require Import Ascii String ZArith.
From stdpp Require Import gmap strings list fin_maps.

Local Open Scope string_scope.
Local Open Scope list_scope.

(** ** Python values, exceptions, results *)

(** The values [json.loads] can produce. *)
#[local] Set Warnings "-register-all".
Inductive pyval : Type :=
| PNone
| PBool (b : bool)
| PInt (z : Z)
| PFloat (literal : string)
| PStr (s : string)
| PList (l : list pyval)
| PDict (d : list (string * pyval)).

(** An exception: its class name and what [str(e)] gives. *)
Record exn : Type := Exn { exn_type : string; exn_str : string }.

(** The outcome of evaluating a Python expression. *)
Inductive res (A : Type) : Type :=
| Ret (a : A)
| Raise (e : exn).
Arguments Ret {A} a.
Arguments Raise {A} e.

Definition nl : string := String (ascii_of_nat 10) EmptyString.

(** [x in l] for a list of strings. *)
Definition str_in (x : string) (l : list string) : bool :=
  existsb (String.eqb x) l.

(** [kw in s] for two strings: [kw] occurs in [s] as a contiguous run. *)
Fixpoint contains (kw s : string) : bool :=
  String.prefix kw s ||
  match s with
  | EmptyString => false
  | String _ s' => contains kw s'
  end.

(** Truth value of an [Optional[str]]: [None] and the empty string are false. *)
Definition truthy (r : option string) : bool :=
  match r with
  | Some (String _ _) => true
  | _ => false
  end.

(** The string held by a result known to be true. *)
Definition str_value (r : option string) : string := default EmptyString r.

(** [str.capitalize], written out for the ASCII range; the program applies it
    to the four keyword constants of [analyze_scia_values] only. *)
Definition ascii_upper (c : ascii) : ascii :=
  let n := nat_of_ascii c in
  if (97 <=? n)%nat && (n <=? 122)%nat then ascii_of_nat (n - 32) else c.

Definition ascii_lower (c : ascii) : ascii :=
  let n := nat_of_ascii c in
  if (65 <=? n)%nat && (n <=? 90)%nat then ascii_of_nat (n + 32) else c.

Fixpoint map_string (f : ascii -> ascii) (s : string) : string :=
  match s with
  | EmptyString => EmptyString
  | String c s' => String (f c) (map_string f s')
  end.

Definition capitalize (s : string) : string :=
  match s with
  | EmptyString => EmptyString
  | String c s' => String (ascii_upper c) (map_string ascii_lower s')
  end.

(** ** Insertion-ordered dictionary (Python [dict] with [str] keys) *)

Module PyDict.

Definition t : Type := list (string * string).

Fixpoint get (d : t) (k : string) : option string :=
  match d with
  | [] => None
  | (k', v) :: d' => if String.eqb k' k then Some v else get d' k
  end.

(** [k in d] *)
Definition mem (d : t) (k : string) : bool :=
  match get d k with Some _ => true | None => false end.

(** [d[k] = v]: an existing key keeps its position, a new one goes last. *)
Fixpoint set (d : t) (k v : string) : t :=
  match d with
  | [] => [(k, v)]
  | (k', v') :: d' =>
      if String.eqb k' k then (k', v) :: d' else (k', v') :: set d' k v
  end.

(** [del d[k]] (the caller has checked [k in d]). *)
Fixpoint del (d : t) (k : string) : t :=
  match d with
  | [] => []
  | (k', v') :: d' =>
      if String.eqb k' k then del d' k else (k', v') :: del d' k
  end.

(** [list(d.keys())] *)
Definition keys (d : t) : list string := map fst d.

(** [bool(d)] *)
Definition nonempty (d : t) : bool :=
  match d with [] => false | _ :: _ => true end.

End PyDict.

(** ** nlp_manager.py *)

(** A spaCy [Doc] as far as the program reads it: [doc.text] and the text
    of each token, in order. *)
Record Doc : Type := { text : string; tokens : list string }.

(** ** smtp_config.py *)

Record SMTPConfig : Type := {
  smtp_server : string;
  smtp_port : Z;
  sender_email : string;
  sender_password : string;
  recipient_email : string
}.

Definition smtp_config_instance : SMTPConfig :=
  {| smtp_server := EmptyString;
     smtp_port := 587;
     sender_email := EmptyString;
     sender_password := EmptyString;
     recipient_email := EmptyString |}.

(** The message built by [forward_query_to_admin]. *)
Record MIMEText : Type := {
  msg_payload : string;
  msg_subject : string;
  msg_from : string;
  msg_to : string
}.

(** How the mail part of [forward_query_to_admin]'s [try] block ends. *)
Inductive smtp_outcome : Type :=
| Delivered
    (** the [with] block ran to its end and the session closed *)
| RaisedBeforeRecord (e : exn)
    (** building the message, connecting, [starttls], [login] or
        [sendmail] raised: the statements after [sendmail] did not run *)
| RaisedOnQuit (e : exn).
    (** the body of the [with] block ran to its end, then closing the
        session ([SMTP.__exit__]) raised *)

(** ** What comes from outside the repository *)

Class Externals : Type := {
  (** [str.lower] *)
  str_lower : string -> string;
  (** [spacy.load("en_core_web_sm")] applied to a text *)
  spacy_nlp : string -> res Doc;
  (** the exception of the same call on an argument that is not a text *)
  spacy_reject : pyval -> exn;
  (** outcome of the mail exchange, given how many were attempted before *)
  smtp_session : nat -> SMTPConfig -> MIMEText -> smtp_outcome
}.

(** ** nlp_manager.py: NLPManager *)

Section NLPManager.
Context `{Externals}.

Definition process_input (user_input : string) : res Doc :=
  spacy_nlp user_input.

Definition greetings : list string := ["hi"; "hello"; "hey"].
Definition gratitude_words : list string := ["thanks"; "thank"; "thank you"].

(** The [for token in doc] loop of [analyze_greeting]; [doc] is the whole
    document, [rest] what the loop has still to visit. *)
Fixpoint greeting_loop (doc : Doc) (rest : list string) : option string :=
  match rest with
  | [] => None
  | token :: rest' =>
      if str_in (str_lower token) greetings
      then Some "Hello there! How can I assist you today?"
      else if existsb (fun token => str_in (str_lower token) gratitude_words)
                      (tokens doc)
      then Some "You're welcome!"
      else greeting_loop doc rest'
  end.

Definition analyze_greeting (doc : Doc) : option string :=
  greeting_loop doc (tokens doc).

Definition mission_keywords : list string := ["mission"].
Definition vision_keywords : list string := ["vision"].

Definition analyze_mission_vision (doc : Doc) : option string :=
  if existsb (fun keyword => contains keyword (str_lower (text doc)))
             mission_keywords
  then Some "To propel Africa's prosperity by connecting its people, cultures and markets."
  else if existsb (fun keyword => contains keyword (str_lower (text doc)))
                  vision_keywords
  then Some "To be Africa's preferred and sustainable Aviation group."
  else None.

Definition scenarios : list (string * string) :=
  [ ("safety", " Safety is the foundation of everything we do.");
    ("customer obsession", " We commit to creating positive memorable experiences for our customers.");
    ("integrity", " We shall be ethical and trustworthy in all our engagements and we shall treat each person with respect.");
    ("accountability", " We take initiative and responsibility for our actions, decisions and results.") ].

Definition default_message : string :=
  "I don't have an answer for that, sorry.".

Definition get_scenario_for_value (value : string) : string :=
  let scenario := default default_message (PyDict.get scenarios (str_lower value)) in
  if truthy (Some scenario) then scenario else default_message.

Definition scia_keywords : list string :=
  ["safety"; "customer obsession"; "integrity"; "accountability"].
Definition values_keyword : string := "values".

(** The [for keyword in scia_keywords] loop of [analyze_scia_values]. *)
Fixpoint scenario_loop (doc : Doc) (keywords : list string) : option string :=
  match keywords with
  | [] => None
  | keyword :: keywords' =>
      if contains keyword (str_lower (text doc))
      then
        let value := capitalize keyword in
        let meaning := get_scenario_for_value keyword in
        Some (value +:+ ": " +:+ meaning)
      else scenario_loop doc keywords'
  end.

Definition analyze_scia_values (doc : Doc) : option string :=
  if contains values_keyword (str_lower (text doc))
  then
    let scia_values := map capitalize scia_keywords in
    Some (String.concat ", " scia_values)
  else scenario_loop doc scia_keywords.

End NLPManager.

(** ** bot_manager.py *)

Inductive log_level : Type := INFO | ERROR.

(** The objects the program mutates, and what it has sent out.  [Admin.bot]
    is the bot whose [respond] is called, as [views.py] constructs them. *)
Record world : Type := World {
  db : gmap string string;
      (** [RuleBasedBot.db] *)
  unanswered_queries : PyDict.t;
      (** [Admin.unanswered_queries] *)
  log : list (log_level * string);
      (** records emitted through [Admin.log], oldest first *)
  smtp_attempts : list MIMEText
      (** the messages [forward_query_to_admin] set out to send, oldest first *)
}.

Definition initial : world :=
  {| db := ∅; unanswered_queries := []; log := []; smtp_attempts := [] |}.

Definition set_db (f : gmap string string → gmap string string) (w : world) : world :=
  {| db := f (db w); unanswered_queries := unanswered_queries w;
     log := log w; smtp_attempts := smtp_attempts w |}.

Definition set_unanswered_queries (f : PyDict.t → PyDict.t) (w : world) : world :=
  {| db := db w; unanswered_queries := f (unanswered_queries w);
     log := log w; smtp_attempts := smtp_attempts w |}.

Definition set_log (f : list (log_level * string) → list (log_level * string))
    (w : world) : world :=
  {| db := db w; unanswered_queries := unanswered_queries w;
     log := f (log w); smtp_attempts := smtp_attempts w |}.

Definition set_smtp_attempts (f : list MIMEText → list MIMEText) (w : world) : world :=
  {| db := db w; unanswered_queries := unanswered_queries w;
     log := log w; smtp_attempts := f (smtp_attempts w) |}.

(** A method body: it reads and writes the world, and returns or raises. *)
Definition M (A : Type) : Type := world → res A * world.

Definition ret {A} (a : A) : M A := fun w => (Ret a, w).
Definition raise {A} (e : exn) : M A := fun w => (Raise e, w).
Definition lift {A} (r : res A) : M A := fun w => (r, w).
Definition gets {A} (f : world → A) : M A := fun w => (Ret (f w), w).
Definition modify (f : world → world) : M unit := fun w => (Ret tt, f w).

Definition bind {A B} (m : M A) (k : A → M B) : M B :=
  fun w =>
    match m w with
    | (Ret a, w') => k a w'
    | (Raise e, w') => (Raise e, w')
    end.

(** [try: body / except Exception as e: handler]: what the body wrote before
    it raised stays written. *)
Definition try_except {A} (body : M A) (handler : exn → M A) : M A :=
  fun w =>
    match body w with
    | (Ret a, w') => (Ret a, w')
    | (Raise e, w') => handler e w'
    end.

Notation "x <- m ;; k" := (bind m (fun x => k))
  (at level 20, m at level 99, k at level 200, only parsing).
Notation "m ;; k" := (bind m (fun _ => k))
  (at level 100, k at level 200, right associativity, only parsing).

Definition placeholder : string :=
  "Forwarded to admin's email. Waiting for response.".
Definition forward_error : string :=
  "Error forwarding to admin. Please try again.".
Definition apology : string :=
  "I don't have an answer for that, sorry. 😔".

Section BotManager.
Context `{Externals}.

(** *** RuleBasedBot *)

Definition add_to_db (q a : string) : M unit :=
  modify (set_db (fun d => <[q := a]> d)).

(** *** Admin *)

Definition provide_answer (q a : string) : M unit :=
  add_to_db q a ;;
  modify (set_unanswered_queries (fun u => PyDict.set u q a)).

Definition has_unanswered_queries : M bool :=
  gets (fun w => PyDict.nonempty (unanswered_queries w)).

Definition get_response (q : string) : M string :=
  gets (fun w => default default_message (PyDict.get (unanswered_queries w) q)).

Definition get_unanswered_queries : M (list string) :=
  gets (fun w => PyDict.keys (unanswered_queries w)).

Definition mark_resolved (q : string) : M unit :=
  u <- gets unanswered_queries ;;
  if PyDict.mem u q
  then modify (set_unanswered_queries (fun u => PyDict.del u q))
  else ret tt.

Definition log_info (m : string) : M unit :=
  modify (set_log (fun l => l ++ [(INFO, m)])).
Definition log_error (m : string) : M unit :=
  modify (set_log (fun l => l ++ [(ERROR, m)])).

Definition new_query_message (q : string) (cfg : SMTPConfig) : MIMEText :=
  {| msg_payload := "The bot received a new query:" +:+ nl +:+ nl +:+ q
                    +:+ nl +:+ nl +:+ "Please respond to the user.";
     msg_subject := "New Query: " +:+ q;
     msg_from := sender_email cfg;
     msg_to := recipient_email cfg |}.

Definition forward_query_to_admin (q : string) (cfg : SMTPConfig) : M unit :=
  try_except
    (u <- gets unanswered_queries ;;
     if negb (PyDict.mem u q)
     then
       let msg := new_query_message q cfg in
       n <- gets (fun w => length (smtp_attempts w)) ;;
       modify (set_smtp_attempts (fun l => l ++ [msg])) ;;
       match smtp_session n cfg msg with
       | Delivered =>
           log_info ("Query forwarded successfully: " +:+ q) ;;
           modify (set_unanswered_queries (fun u => PyDict.set u q placeholder))
       | RaisedBeforeRecord e => raise e
       | RaisedOnQuit e =>
           log_info ("Query forwarded successfully: " +:+ q) ;;
           modify (set_unanswered_queries (fun u => PyDict.set u q placeholder)) ;;
           raise e
       end
     else ret tt)
    (fun e =>
       log_error ("Error forwarding query '" +:+ q +:+ "': " +:+ exn_str e) ;;
       modify (set_unanswered_queries (fun u => PyDict.set u q forward_error))).

(** *** RuleBasedBot.respond *)

Definition respond (user_input : string) (cfg : SMTPConfig) : M string :=
  d <- gets db ;;
  match d !! user_input with
  | Some a => ret a
  | None =>
      nlp_doc <- lift (process_input user_input) ;;
      let greeting_response := analyze_greeting nlp_doc in
      let mission_vision_response := analyze_mission_vision nlp_doc in
      let scia_values_response := analyze_scia_values nlp_doc in
      if truthy greeting_response
      then ret (str_value greeting_response)
      else if truthy mission_vision_response
      then ret (str_value mission_vision_response)
      else if truthy scia_values_response
      then ret (str_value scia_values_response)
      else
        add_to_db user_input placeholder ;;
        forward_query_to_admin user_input cfg ;;
        ret apology
  end.

(** What the [if]/[elif] chain of lines 55-60 returns for a document;
    [None] where the chain falls through to its [else]. *)
Definition nlp_answer (nlp_doc : Doc) : option string :=
  if truthy (analyze_greeting nlp_doc)
  then Some (str_value (analyze_greeting nlp_doc))
  else if truthy (analyze_mission_vision nlp_doc)
  then Some (str_value (analyze_mission_vision nlp_doc))
  else if truthy (analyze_scia_values nlp_doc)
  then Some (str_value (analyze_scia_values nlp_doc))
  else None.

(** [respond] as [views.py] calls it, on whatever [data.get] returned.
    A list or a dict cannot be hashed for [user_input in self.db]; any
    other value that is not a text is no key of [db] and is refused by
    the pipeline. *)
Definition respond_dyn (user_input : pyval) (cfg : SMTPConfig) : M string :=
  match user_input with
  | PStr s => respond s cfg
  | PList _ => raise (Exn "TypeError" "unhashable type: 'list'")
  | PDict _ => raise (Exn "TypeError" "unhashable type: 'dict'")
  | v => raise (spacy_reject v)
  end.

(** *** Names for the worlds [forward_query_to_admin] passes through *)

(** The mail exchange for [q] has been set out on. *)
Definition attempted (q : string) (cfg : SMTPConfig) (w : world) : world :=
  set_smtp_attempts (fun l => l ++ [new_query_message q cfg]) w.

Definition recorded (q status : string) (w : world) : world :=
  set_unanswered_queries (fun u => PyDict.set u q status) w.

Definition logged (lvl : log_level) (m : string) (w : world) : world :=
  set_log (fun l => l ++ [(lvl, m)]) w.

(** How the exchange for [q] will end if it is set out on in [w]. *)
Definition outcome_for (q : string) (cfg : SMTPConfig) (w : world) : smtp_outcome :=
  smtp_session (length (smtp_attempts w)) cfg (new_query_message q cfg).

End BotManager.

(** ** views.py *)

(** A request as [bot_view] reads it: [request.method], and the outcome of
    [json.loads(request.body)]. *)
Record HttpRequest : Type := { method : string; body : res pyval }.

(** [JsonResponse({key: value}, status=...)] *)
Record JsonResponse : Type := { content : string * string; status : Z }.

Definition type_name (v : pyval) : string :=
  match v with
  | PNone => "NoneType"
  | PBool _ => "bool"
  | PInt _ => "int"
  | PFloat _ => "float"
  | PStr _ => "str"
  | PList _ => "list"
  | PDict _ => "dict"
  end.

Fixpoint assoc (d : list (string * pyval)) (k : string) : option pyval :=
  match d with
  | [] => None
  | (k', v) :: d' => if String.eqb k' k then Some v else assoc d' k
  end.

(** [data.get(key)]: only a dict has the method; a missing key gives [None]. *)
Definition py_get (data : pyval) (key : string) : res pyval :=
  match data with
  | PDict d => Ret (default PNone (assoc d key))
  | v => Raise (Exn "AttributeError"
                    ("'" +:+ type_name v +:+ "' object has no attribute 'get'"))
  end.

Definition input_required : JsonResponse :=
  {| content := ("error", "User input is required"); status := 400 |}.

Definition post_only : JsonResponse :=
  {| content := ("error", "Only POST requests are allowed."); status := 400 |}.

Section Views.
Context `{Externals}.

Definition bot_view (request : HttpRequest) (w : world) : JsonResponse * world :=
  if String.eqb (method request) "POST"
  then
    match
      (data <- lift (body request) ;;
       user_input <- lift (py_get data "user_input") ;;
       match user_input with
       | PNone => ret input_required
       | _ =>
           bot_response <- respond_dyn user_input smtp_config_instance ;;
           ret {| content := ("bot_response", bot_response); status := 200 |}
       end) w
    with
    | (Ret response, w') => (response, w')
    | (Raise e, w') => ({| content := ("error", exn_str e); status := 500 |}, w')
    end
  else (post_only, w).

End Views.

(** ** Sequences of calls on one bot and its administrator *)

Inductive call : Type :=
| AddToDb (q a : string)
| Respond (user_input : string) (cfg : SMTPConfig)
| ProvideAnswer (q a : string)
| MarkResolved (q : string)
| ForwardQueryToAdmin (q : string) (cfg : SMTPConfig).

(** What has happened to a question, as far as the ledger is concerned. *)
Inductive event : Type :=
| Forwarded (q : string)   (** [forward_query_to_admin(q, ...)] was entered *)
| Answered (q : string)    (** [provide_answer(q, ...)] was entered *)
| Resolved (q : string).   (** [mark_resolved(q)] was entered *)

Section Calls.
Context `{Externals}.

Definition exec (c : call) (w : world) : world :=
  match c with
  | AddToDb q a => snd (add_to_db q a w)
  | Respond user_input cfg => snd (respond user_input cfg w)
  | ProvideAnswer q a => snd (provide_answer q a w)
  | MarkResolved q => snd (mark_resolved q w)
  | ForwardQueryToAdmin q cfg => snd (forward_query_to_admin q cfg w)
  end.

Definition run (cs : list call) (w : world) : world :=
  fold_left (fun w c => exec c w) cs w.

(** [respond] reaches its last [else] (line 61), the only place where it
    calls [forward_query_to_admin]. *)
Definition escalates (user_input : string) (w : world) : bool :=
  match db w !! user_input with
  | Some _ => false
  | None =>
      match process_input user_input with
      | Raise _ => false
      | Ret nlp_doc =>
          match nlp_answer nlp_doc with Some _ => false | None => true end
      end
  end.

Definition events_of (c : call) (w : world) : list event :=
  match c with
  | AddToDb _ _ => []
  | Respond user_input _ =>
      if escalates user_input w then [Forwarded user_input] else []
  | ProvideAnswer q _ => [Answered q]
  | MarkResolved q => [Resolved q]
  | ForwardQueryToAdmin q _ => [Forwarded q]
  end.

(** The events of a sequence of calls started in [w], oldest first. *)
Fixpoint history (cs : list call) (w : world) : list event :=
  match cs with
  | [] => []
  | c :: cs' => events_of c w ++ history cs' (exec c w)
  end.

(** [respond(q, ...)] called [n] times in a row. *)
Fixpoint ask (n : nat) (q : string) (cfg : SMTPConfig) (w : world) : world :=
  match n with
  | O => w
  | S n' => ask n' q cfg (snd (respond q cfg w))
  end.

(** The call assigns [db[q]] whatever is stored there.  ([respond] assigns
    [db[user_input]] only where the key is absent.) *)
Definition overwrites (q : string) (c : call) : bool :=
  match c with
  | AddToDb q' _ | ProvideAnswer q' _ => String.eqb q' q
  | _ => false
  end.

End Calls.

(** ** Reading the history *)

(** "[q] has been forwarded and has not yet been marked resolved". *)
Definition step_forwarded (q : string) (st : bool) (e : event) : bool :=
  match e with
  | Forwarded q' => if String.eqb q' q then true else st
  | Resolved q' => if String.eqb q' q then false else st
  | Answered _ => st
  end.

Definition forwarded_unresolved (q : string) (h : list event) : bool :=
  fold_left (step_forwarded q) h false.

(** "[q] has been forwarded or given an answer by the administrator, and has
    not been marked resolved since". *)
Definition step_tracked (q : string) (st : bool) (e : event) : bool :=
  match e with
  | Forwarded q' | Answered q' => if String.eqb q' q then true else st
  | Resolved q' => if String.eqb q' q then false else st
  end.

Definition tracked (q : string) (h : list event) : bool :=
  fold_left (step_tracked q) h false.

(** A record for [q] exists in the ledger. *)
Definition has_record (w : world) (q : string) : Prop :=
  PyDict.mem (unanswered_queries w) q = true.

Definition ledger_matches (reading : string → list event → bool)
    (w : world) (h : list event) : Prop :=
  ∀ q, has_record w q ↔ reading q h = true.

(** ** A concrete environment to run the program in

    ASCII lower-casing, tokens split at spaces, and a script that gives the
    outcome of each mail exchange. *)
Module Demo.

Definition env (script : nat → smtp_outcome) : Externals :=
  {| str_lower := map_string ascii_lower;
     spacy_nlp := fun s => Ret {| text := s; tokens := String.words s |};
     spacy_reject := fun v =>
       Exn "ValueError"
           ("[E1041] Expected a string, Doc, or bytes as input, but got: "
            +:+ type_name v);
     smtp_session := fun n _ _ => script n |}.

Definition delivers : Externals := env (fun _ => Delivered).

Definition refused : exn :=
  Exn "ConnectionRefusedError" "[Errno 111] Connection refused".

Definition fails : Externals := env (fun _ => RaisedBeforeRecord refused).

Definition cfg : SMTPConfig := smtp_config_instance.

Definition flight : string := "what time is the next flight".

(** A POST request whose body decodes to [data]. *)
Definition post (data : pyval) : HttpRequest :=
  {| method := "POST"; body := Ret data |}.

End Demo.

(** ** Statements in the specification's own words *)

Section AsSpecified.
Context `{Externals}.

(** The text is processed and none of the three analyses answers. *)
Definition no_classifier_answer (q : string) : Prop :=
  ∃ nlp_doc,
    process_input q = Ret nlp_doc ∧
    truthy (analyze_greeting nlp_doc) = false ∧
    truthy (analyze_mission_vision nlp_doc) = false ∧
    truthy (analyze_scia_values nlp_doc) = false.

(** One of them answers. *)
Definition classifier_answers (q : string) (nlp_doc : Doc) : Prop :=
  process_input q = Ret nlp_doc ∧
  (truthy (analyze_greeting nlp_doc) = true ∨
   truthy (analyze_mission_vision nlp_doc) = true ∨
   truthy (analyze_scia_values nlp_doc) = true).

(** "respond returns the fixed apology string
    [I don't have an answer for that, sorry.]" *)
Definition escalation_reply_as_specified
    (w : world) (q : string) (cfg : SMTPConfig) : Prop :=
  db w !! q = None → no_classifier_answer q →
  fst (respond q cfg w) = Ret "I don't have an answer for that, sorry.".

(** "calling respond(q) any number N >= 1 of times causes exactly one
    notification-send attempt", for [q] with no entry in the knowledge base
    and no classifier answer. *)
Definition one_attempt_as_specified
    (w : world) (q : string) (cfg : SMTPConfig) (n : nat) : Prop :=
  db w !! q = None → no_classifier_answer q →
  length (smtp_attempts (ask (S n) q cfg w)) = S (length (smtp_attempts w)).

End AsSpecified.

(** ** Further vocabulary for the properties below *)

Definition hello : string := "Hello there! How can I assist you today?".
Definition welcome : string := "You're welcome!".
Definition mission_statement : string :=
  "To propel Africa's prosperity by connecting its people, cultures and markets.".
Definition vision_statement : string :=
  "To be Africa's preferred and sustainable Aviation group.".

(** The call is a direct [forward_query_to_admin], not one made by [respond]. *)
Definition direct_forward (c : call) : bool :=
  match c with
  | ForwardQueryToAdmin _ _ => true
  | _ => false
  end.

(** Every message set out on so far is about a question that the knowledge
    base has an entry for, and no two of them have the same subject. *)
Definition mailed_once (w : world) : Prop :=
  NoDup (map msg_subject (smtp_attempts w))
  ∧ ∀ m, In m (smtp_attempts w) →
      ∃ q, msg_subject m = "New Query: " +:+ q ∧ is_Some (db w !! q).

Section Vocabulary.
Context `{Externals}.

(** [token.text.lower() in greetings], [... in gratitude_words] *)
Definition is_greeting (token : string) : bool :=
  str_in (str_lower token) greetings.
Definition is_gratitude (token : string) : bool :=
  str_in (str_lower token) gratitude_words.

(** [doc.text.lower()] *)
Definition lowered (doc : Doc) : string := str_lower (text doc).

(** What [get_unanswered_queries] returns in [w]. *)
Definition pending (w : world) : list string :=
  PyDict.keys (unanswered_queries w).

(** The requests handled one after the other by the one module-level bot. *)
Definition serve (requests : list HttpRequest) (w : world) : world :=
  fold_left (fun w request => snd (bot_view request w)) requests w.

End Vocabulary.

(** ** Further concrete environments and inputs *)

Module Scenarios.

(** Closing the session fails after the message has gone out. *)
Definition quit_refused : exn :=
  Exn "SMTPResponseException" "(421, b'Service not available')".

Definition quits : Externals := Demo.env (fun _ => RaisedOnQuit quit_refused).

(** A pipeline whose [max_length] is set to 10 characters. *)
Definition too_long : exn :=
  Exn "ValueError" "[E088] Text exceeds maximum of 10".

Definition short_pipeline : Externals :=
  {| str_lower := map_string ascii_lower;
     spacy_nlp := fun s =>
       if (10 <? String.length s)%nat then Raise too_long
       else Ret {| text := s; tokens := String.words s |};
     spacy_reject := fun v => Exn "ValueError" (type_name v);
     smtp_session := fun _ _ _ => Delivered |}.

Definition ask_text (s : string) : HttpRequest :=
  Demo.post (PDict [("user_input", PStr s)]).

Definition get_request : HttpRequest :=
  {| method := "GET"; body := Raise (Exn "JSONDecodeError" "Expecting value") |}.

Definition fares : string := "fares".

(** The document the concrete pipeline makes of a text. *)
Definition doc_of (s : string) : Doc :=
  {| text := s; tokens := String.words s |}.

End Scenarios.

(** * Properties *)

(** ** The dictionary *)

Module PyDictFacts.
Import PyDict.

Lemma get_set_eq (d : t) (k v : string) : get (set d k v) k = Some v.
Proof.
  induction d as [|[k' v'] d IH]; simpl.
  - by rewrite String.eqb_refl.
  - destruct (String.eqb k' k) eqn:E; simpl; rewrite E; [done | exact IH].
Qed.

Lemma get_set_ne (d : t) (k k' v : string) :
  k ≠ k' → get (set d k v) k' = get d k'.
Proof.
  intros Hne. induction d as [|[k0 v0] d IH]; simpl.
  - destruct (String.eqb_spec k k'); [contradiction | done].
  - destruct (String.eqb_spec k0 k) as [->|Hk0]; simpl.
    + destruct (String.eqb_spec k k'); [contradiction | done].
    + destruct (String.eqb k0 k'); [done | exact IH].
Qed.

Lemma mem_set (d : t) (k k' v : string) :
  mem (set d k v) k' = String.eqb k k' || mem d k'.
Proof.
  unfold mem. destruct (String.eqb_spec k k') as [->|Hne]; simpl.
  - by rewrite get_set_eq.
  - by rewrite get_set_ne.
Qed.

Lemma get_del (d : t) (k k' : string) :
  get (del d k) k' = if String.eqb k k' then None else get d k'.
Proof.
  induction d as [|[k0 v0] d IH]; simpl.
  - by destruct (String.eqb k k').
  - destruct (String.eqb_spec k0 k) as [->|Hk0]; simpl.
    + rewrite IH. by destruct (String.eqb k k').
    + rewrite IH. destruct (String.eqb_spec k0 k') as [->|Hk0'].
      * destruct (String.eqb_spec k k'); [congruence | done].
      * done.
Qed.

Lemma mem_del (d : t) (k k' : string) :
  mem (del d k) k' = negb (String.eqb k k') && mem d k'.
Proof. unfold mem. rewrite get_del. by destruct (String.eqb k k'). Qed.

Lemma In_keys (d : t) (k : string) : In k (keys d) ↔ mem d k = true.
Proof.
  unfold mem, keys. induction d as [|[k0 v0] d IH]; simpl.
  - split; [tauto | discriminate].
  - destruct (String.eqb_spec k0 k) as [->|Hne].
    + split; [done | by left].
    + rewrite <- IH. split; [intros [?|?]; [contradiction | done] | by right].
Qed.

End PyDictFacts.

(** ** Method by method *)

Ltac step_m :=
  unfold bind, gets, modify, ret, raise, lift, try_except; simpl.

Section MethodFacts.
Context `{Externals}.

Lemma forward_known (q : string) (cfg : SMTPConfig) (w : world) :
  PyDict.mem (unanswered_queries w) q = true →
  forward_query_to_admin q cfg w = (Ret tt, w).
Proof. intros Hq. unfold forward_query_to_admin. step_m. by rewrite Hq. Qed.

Lemma forward_delivered (q : string) (cfg : SMTPConfig) (w : world) :
  PyDict.mem (unanswered_queries w) q = false →
  outcome_for q cfg w = Delivered →
  forward_query_to_admin q cfg w =
    (Ret tt,
     recorded q placeholder
       (logged INFO ("Query forwarded successfully: " +:+ q) (attempted q cfg w))).
Proof.
  unfold outcome_for. intros Hq Ho.
  unfold forward_query_to_admin. step_m. rewrite Hq. simpl. by rewrite Ho.
Qed.

Lemma forward_raised_before (q : string) (cfg : SMTPConfig) (w : world) (e : exn) :
  PyDict.mem (unanswered_queries w) q = false →
  outcome_for q cfg w = RaisedBeforeRecord e →
  forward_query_to_admin q cfg w =
    (Ret tt,
     recorded q forward_error
       (logged ERROR ("Error forwarding query '" +:+ q +:+ "': " +:+ exn_str e)
          (attempted q cfg w))).
Proof.
  unfold outcome_for. intros Hq Ho.
  unfold forward_query_to_admin. step_m. rewrite Hq. simpl. by rewrite Ho.
Qed.

Lemma forward_raised_on_quit (q : string) (cfg : SMTPConfig) (w : world) (e : exn) :
  PyDict.mem (unanswered_queries w) q = false →
  outcome_for q cfg w = RaisedOnQuit e →
  forward_query_to_admin q cfg w =
    (Ret tt,
     recorded q forward_error
       (logged ERROR ("Error forwarding query '" +:+ q +:+ "': " +:+ exn_str e)
          (recorded q placeholder
             (logged INFO ("Query forwarded successfully: " +:+ q)
                (attempted q cfg w))))).
Proof.
  unfold outcome_for. intros Hq Ho.
  unfold forward_query_to_admin. step_m. rewrite Hq. simpl. by rewrite Ho.
Qed.

(** [forward_query_to_admin] returns: nothing raised inside leaves it. *)
Lemma forward_returns (q : string) (cfg : SMTPConfig) (w : world) :
  fst (forward_query_to_admin q cfg w) = Ret tt.
Proof.
  destruct (PyDict.mem (unanswered_queries w) q) eqn:Hq.
  - by rewrite forward_known.
  - destruct (outcome_for q cfg w) eqn:Ho.
    + by rewrite forward_delivered.
    + by rewrite (forward_raised_before _ _ _ e).
    + by rewrite (forward_raised_on_quit _ _ _ e).
Qed.

Lemma forward_db (q : string) (cfg : SMTPConfig) (w : world) :
  db (snd (forward_query_to_admin q cfg w)) = db w.
Proof.
  destruct (PyDict.mem (unanswered_queries w) q) eqn:Hq.
  - by rewrite forward_known.
  - destruct (outcome_for q cfg w) eqn:Ho.
    + by rewrite forward_delivered.
    + by rewrite (forward_raised_before _ _ _ e).
    + by rewrite (forward_raised_on_quit _ _ _ e).
Qed.

(** After [forward_query_to_admin(q)] the ledger has a record for [q], and
    for nothing it had none for before. *)
Lemma forward_mem (q q' : string) (cfg : SMTPConfig) (w : world) :
  PyDict.mem (unanswered_queries (snd (forward_query_to_admin q cfg w))) q' =
  String.eqb q q' || PyDict.mem (unanswered_queries w) q'.
Proof.
  destruct (PyDict.mem (unanswered_queries w) q) eqn:Hq.
  - rewrite forward_known by done. simpl.
    destruct (String.eqb_spec q q') as [<-|]; [by rewrite Hq | done].
  - destruct (outcome_for q cfg w) eqn:Ho.
    + rewrite forward_delivered by done. simpl. apply PyDictFacts.mem_set.
    + rewrite (forward_raised_before _ _ _ e) by done. simpl.
      apply PyDictFacts.mem_set.
    + rewrite (forward_raised_on_quit _ _ _ e) by done. simpl.
      rewrite !PyDictFacts.mem_set. by destruct (String.eqb q q').
Qed.

(** *** The four ways through [respond] *)

Lemma nlp_answer_none (nlp_doc : Doc) :
  nlp_answer nlp_doc = None ↔
  truthy (analyze_greeting nlp_doc) = false ∧
  truthy (analyze_mission_vision nlp_doc) = false ∧
  truthy (analyze_scia_values nlp_doc) = false.
Proof.
  unfold nlp_answer.
  destruct (truthy (analyze_greeting nlp_doc)),
           (truthy (analyze_mission_vision nlp_doc)),
           (truthy (analyze_scia_values nlp_doc)); intuition congruence.
Qed.


Lemma respond_hit (q a : string) (cfg : SMTPConfig) (w : world) :
  db w !! q = Some a → respond q cfg w = (Ret a, w).
Proof. intros Hq. unfold respond. step_m. by rewrite Hq. Qed.

Lemma respond_raises (q : string) (cfg : SMTPConfig) (w : world) (e : exn) :
  db w !! q = None → process_input q = Raise e →
  respond q cfg w = (Raise e, w).
Proof. intros Hq Hd. unfold respond. step_m. by rewrite Hq, Hd. Qed.

Lemma respond_intent (q : string) (cfg : SMTPConfig) (w : world)
    (nlp_doc : Doc) (response : string) :
  db w !! q = None → process_input q = Ret nlp_doc →
  nlp_answer nlp_doc = Some response →
  respond q cfg w = (Ret response, w).
Proof.
  intros Hq Hd Ha. unfold respond, nlp_answer in *. step_m. rewrite Hq, Hd.
  destruct (truthy (analyze_greeting nlp_doc)); [congruence|].
  destruct (truthy (analyze_mission_vision nlp_doc)); [congruence|].
  destruct (truthy (analyze_scia_values nlp_doc)); [congruence | discriminate].
Qed.

Lemma respond_escalate (q : string) (cfg : SMTPConfig) (w : world) (nlp_doc : Doc) :
  db w !! q = None → process_input q = Ret nlp_doc →
  nlp_answer nlp_doc = None →
  respond q cfg w =
    (Ret apology,
     snd (forward_query_to_admin q cfg (snd (add_to_db q placeholder w)))).
Proof.
  intros Hq Hd Ha. apply nlp_answer_none in Ha as (Hg & Hm & Hv).
  unfold respond. step_m. rewrite Hq, Hd, Hg, Hm, Hv.
  pose proof (forward_returns q cfg (set_db (fun d => <[q:=placeholder]> d) w)) as Hr.
  unfold add_to_db. step_m.
  destruct (forward_query_to_admin q cfg _) as [r w']. simpl in Hr. by subst r.
Qed.

End MethodFacts.

(** ** The classifier *)

Section Classifier.
Context `{Externals}.

(** C8.  Whenever the lower-cased text of the document contains "values",
    [analyze_scia_values] returns the four value names, capitalized and
    joined by ", ", in the order safety, customer obsession, integrity,
    accountability.  Nothing is assumed about the rest of the text, so the
    list is returned also where a value keyword occurs in it and the
    per-value scenario would otherwise be given. *)
Theorem values_enumeration (doc : Doc) :
  contains "values" (str_lower (text doc)) = true →
  analyze_scia_values doc =
    Some "Safety, Customer obsession, Integrity, Accountability"
  ∧ analyze_scia_values doc =
    Some (String.concat ", " (map capitalize
            ["safety"; "customer obsession"; "integrity"; "accountability"])).
Proof.
  intros Hv. unfold analyze_scia_values, values_keyword.
  rewrite Hv. split; reflexivity.
Qed.

(** C10.  When the first token of the document is no greeting word and
    some token, wherever it stands, is a gratitude word, [analyze_greeting]
    returns "You're welcome!", whatever the later tokens are -- a greeting
    word among them included. *)
Theorem gratitude_before_later_greeting
    (doc : Doc) (first : string) (rest : list string) (t : string) :
  tokens doc = first :: rest →
  str_in (str_lower first) greetings = false →
  In t (tokens doc) →
  str_in (str_lower t) gratitude_words = true →
  analyze_greeting doc = Some "You're welcome!".
Proof.
  intros Htok Hfirst Hin Ht. unfold analyze_greeting.
  rewrite Htok. cbn [greeting_loop]. rewrite Hfirst.
  assert (existsb (fun token => str_in (str_lower token) gratitude_words)
                  (tokens doc) = true) as ->; [|done].
  apply existsb_exists. by exists t.
Qed.

End Classifier.

(** ** The resolver *)

Section Resolver.
Context `{Externals}.

Lemma no_answer_inv (q : string) :
  no_classifier_answer q →
  ∃ nlp_doc, process_input q = Ret nlp_doc ∧ nlp_answer nlp_doc = None.
Proof.
  intros (nlp_doc & Hd & Hg & Hm & Hv). exists nlp_doc. split; [done|].
  by apply nlp_answer_none.
Qed.

Lemma escalate_eq (w : world) (q : string) (cfg : SMTPConfig) :
  db w !! q = None → no_classifier_answer q →
  respond q cfg w =
    (Ret apology,
     snd (forward_query_to_admin q cfg (snd (add_to_db q placeholder w)))).
Proof.
  intros Hq (nlp_doc & Hd & Ha)%no_answer_inv. by eapply respond_escalate.
Qed.

(** C1 (amended).  For every text [q] that is no key of the knowledge base
    and that none of the three analyses answers, [respond] stores the
    placeholder under [q] in the knowledge base and changes no other entry;
    where the ledger had no record for [q] and the mail exchange succeeds,
    the ledger then holds the placeholder record for [q]; and the call
    returns the apology sentence followed by a space and the pensive-face
    character, whatever the outcome of the exchange. *)
Theorem escalation_effects (w : world) (q : string) (cfg : SMTPConfig) :
  db w !! q = None →
  no_classifier_answer q →
  fst (respond q cfg w) = Ret "I don't have an answer for that, sorry. 😔"
  ∧ db (snd (respond q cfg w)) = <[q := placeholder]> (db w)
  ∧ (PyDict.mem (unanswered_queries w) q = false →
     outcome_for q cfg w = Delivered →
     PyDict.get (unanswered_queries (snd (respond q cfg w))) q = Some placeholder).
Proof.
  intros Hq Hn. rewrite (escalate_eq w q cfg Hq Hn). simpl.
  split; [done|]. split.
  - by rewrite forward_db.
  - intros Hu Ho. rewrite forward_delivered by done. simpl.
    apply PyDictFacts.get_set_eq.
Qed.

(** C4.  For every [q] without a ledger record, when the mail exchange
    raises -- before or after the success record was written --
    [forward_query_to_admin] returns normally and the ledger holds the
    error status for [q]; a [respond] call that escalates [q] in that
    situation still returns the apology, the same value as when the
    exchange succeeds. *)
Theorem notification_failure
    (w : world) (q : string) (cfg : SMTPConfig) (e : exn) :
  PyDict.mem (unanswered_queries w) q = false →
  outcome_for q cfg w = RaisedBeforeRecord e ∨ outcome_for q cfg w = RaisedOnQuit e →
  fst (forward_query_to_admin q cfg w) = Ret tt
  ∧ PyDict.get (unanswered_queries (snd (forward_query_to_admin q cfg w))) q
    = Some forward_error
  ∧ (db w !! q = None → no_classifier_answer q →
     fst (respond q cfg w) = Ret apology
     ∧ PyDict.get (unanswered_queries (snd (respond q cfg w))) q
       = Some forward_error).
Proof.
  intros Hu Ho. split; [apply forward_returns|]. split.
  - destruct Ho as [Ho|Ho].
    + rewrite (forward_raised_before _ _ _ e) by done. simpl.
      apply PyDictFacts.get_set_eq.
    + rewrite (forward_raised_on_quit _ _ _ e) by done. simpl.
      apply PyDictFacts.get_set_eq.
  - intros Hq Hn. rewrite (escalate_eq w q cfg Hq Hn). simpl.
    split; [done|].
    destruct Ho as [Ho|Ho].
    + rewrite (forward_raised_before _ _ _ e) by done. simpl.
      apply PyDictFacts.get_set_eq.
    + rewrite (forward_raised_on_quit _ _ _ e) by done. simpl.
      apply PyDictFacts.get_set_eq.
Qed.

(** C7.  For every text [q] that misses the knowledge base and that one of
    the three analyses answers, [respond] returns an answer of the
    classifier -- the first of greeting, mission/vision, values that is
    not empty -- and the world after the call is the world before it: same
    knowledge base, same ledger, no mail exchange set out on, nothing
    logged. *)
Theorem intent_answer_frame
    (w : world) (q : string) (cfg : SMTPConfig) (nlp_doc : Doc) :
  db w !! q = None →
  classifier_answers q nlp_doc →
  ∃ answer,
    respond q cfg w = (Ret answer, w)
    ∧ nlp_answer nlp_doc = Some answer
    ∧ In (Some answer) [analyze_greeting nlp_doc;
                        analyze_mission_vision nlp_doc;
                        analyze_scia_values nlp_doc].
Proof.
  intros Hq [Hd Hany].
  assert (∃ answer, nlp_answer nlp_doc = Some answer
            ∧ In (Some answer) [analyze_greeting nlp_doc;
                                analyze_mission_vision nlp_doc;
                                analyze_scia_values nlp_doc])
    as (answer & Ha & Hin).
  { unfold nlp_answer.
    destruct (analyze_greeting nlp_doc) as [[|c g]|] eqn:Eg;
    destruct (analyze_mission_vision nlp_doc) as [[|c' m]|] eqn:Em;
    destruct (analyze_scia_values nlp_doc) as [[|c'' v]|] eqn:Ev;
    simpl in *; try (eexists; split; [reflexivity | simpl; tauto]);
    destruct Hany as [?|[?|?]]; discriminate. }
  exists answer. split; [|done]. by eapply respond_intent.
Qed.

End Resolver.

(** ** Sequences of calls *)

Section Sequences.
Context `{Externals}.

Lemma forward_attempts (q : string) (cfg : SMTPConfig) (w : world) :
  smtp_attempts (snd (forward_query_to_admin q cfg w)) =
  smtp_attempts w ++
    (if PyDict.mem (unanswered_queries w) q then [] else [new_query_message q cfg]).
Proof.
  destruct (PyDict.mem (unanswered_queries w) q) eqn:Hq.
  - rewrite forward_known by done. simpl. by rewrite app_nil_r.
  - destruct (outcome_for q cfg w) eqn:Ho.
    + by rewrite forward_delivered.
    + by rewrite (forward_raised_before _ _ _ e).
    + by rewrite (forward_raised_on_quit _ _ _ e).
Qed.

(** [respond] either leaves the world alone or escalates. *)
Lemma respond_cases (q : string) (cfg : SMTPConfig) (w : world) :
  (escalates q w = false ∧ snd (respond q cfg w) = w)
  ∨ (escalates q w = true ∧ db w !! q = None ∧
     respond q cfg w =
       (Ret apology,
        snd (forward_query_to_admin q cfg (snd (add_to_db q placeholder w))))).
Proof.
  unfold escalates.
  destruct (db w !! q) as [a|] eqn:Hq.
  { left. by rewrite (respond_hit q a). }
  destruct (process_input q) as [nlp_doc|e] eqn:Hd.
  2:{ left. by rewrite (respond_raises q cfg w e). }
  destruct (nlp_answer nlp_doc) as [r|] eqn:Ha.
  { left. by rewrite (respond_intent q cfg w nlp_doc r). }
  right. split; [done|]. split; [done|]. by eapply respond_escalate.
Qed.

Lemma exec_keeps_entry (q a : string) (c : call) (w : world) :
  overwrites q c = false →
  db w !! q = Some a → db (exec c w) !! q = Some a.
Proof.
  intros Hc Hq. destruct c as [q' a'|q' cfg|q' a'|q'|q' cfg]; simpl in *.
  - apply String.eqb_neq in Hc. by rewrite lookup_insert_ne.
  - destruct (respond_cases q' cfg w) as [[_ ->]|(_ & Hq' & ->)]; [done|].
    simpl. rewrite forward_db. simpl.
    rewrite lookup_insert_ne; [done | congruence].
  - apply String.eqb_neq in Hc. by rewrite lookup_insert_ne.
  - unfold mark_resolved. step_m.
    by destruct (PyDict.mem (unanswered_queries w) q').
  - by rewrite forward_db.
Qed.

Lemma run_keeps_entry (q a : string) (cs : list call) (w : world) :
  forallb (fun c => negb (overwrites q c)) cs = true →
  db w !! q = Some a → db (run cs w) !! q = Some a.
Proof.
  revert w. induction cs as [|c cs IH]; intros w Hcs Hq; [done|].
  simpl in Hcs. apply andb_prop in Hcs as [Hc Hcs].
  apply negb_true_iff in Hc. simpl. apply IH; [done|].
  by apply exec_keeps_entry.
Qed.

(** C5.  Once [add_to_db(q, a)] has run, and after any further calls none
    of which is an [add_to_db] or a [provide_answer] for the same [q],
    [respond(q)] returns [a] and leaves the world as it found it -- so it
    returns [a] again however often it is asked. *)
Theorem exact_match
    (w : world) (q a : string) (cfg : SMTPConfig) (cs : list call) (n : nat) :
  forallb (fun c => negb (overwrites q c)) cs = true →
  let w' := run cs (snd (add_to_db q a w)) in
  respond q cfg w' = (Ret a, w')
  ∧ ask n q cfg w' = w'.
Proof.
  intros Hcs w'.
  assert (db w' !! q = Some a) as Hq.
  { apply run_keeps_entry; [done|]. simpl. apply lookup_insert_eq. }
  split; [by apply respond_hit|].
  induction n as [|n IH]; [done|]. simpl. by rewrite (respond_hit q a).
Qed.

(** C6.  After [provide_answer(q, a)], [respond(q)] returns [a] -- for
    ["real answer"] as for any other [a]; and after [mark_resolved(q)] the
    list that [get_unanswered_queries] returns does not contain [q], while
    every other question is in it exactly if it was before. *)
Theorem resolution_round_trip (w : world) (q a : string) (cfg : SMTPConfig) :
  fst (respond q cfg (snd (provide_answer q a w))) = Ret a
  ∧ fst (respond q cfg (snd (provide_answer q "real answer" w))) = Ret "real answer"
  ∧ ∃ pending,
      fst (get_unanswered_queries (snd (mark_resolved q w))) = Ret pending
      ∧ ¬ In q pending
      ∧ ∀ q', q' ≠ q →
          (In q' pending ↔ In q' (PyDict.keys (unanswered_queries w))).
Proof.
  assert (∀ a', fst (respond q cfg (snd (provide_answer q a' w))) = Ret a') as Hr.
  { intros a'. rewrite (respond_hit q a'); [done|]. simpl. apply lookup_insert_eq. }
  split; [apply Hr|]. split; [apply Hr|].
  eexists. split; [reflexivity|].
  unfold mark_resolved. step_m.
  destruct (PyDict.mem (unanswered_queries w) q) eqn:Hq; simpl.
  - split.
    + rewrite PyDictFacts.In_keys, PyDictFacts.mem_del, String.eqb_refl. done.
    + intros q' Hne. rewrite !PyDictFacts.In_keys, PyDictFacts.mem_del.
      destruct (String.eqb_spec q q'); [congruence | done].
  - split; [|done]. rewrite PyDictFacts.In_keys. congruence.
Qed.

Lemma ask_hit (n : nat) (q a : string) (cfg : SMTPConfig) (w : world) :
  db w !! q = Some a → ask n q cfg w = w.
Proof.
  intros Hq. induction n as [|n IH]; [done|]. simpl. by rewrite (respond_hit q a).
Qed.

(** C2 (amended).  For every [q] with no entry in the knowledge base and no
    classifier answer, [respond(q)] called [n+1] times sets out on exactly
    one mail exchange when the ledger has no record for [q], and on none
    when it has one.  The first call writes the placeholder into the
    knowledge base and only then forwards; each later call finds the
    placeholder there, returns it and changes nothing; and
    [forward_query_to_admin] on a question that has a record changes
    nothing. *)
Theorem idempotent_escalation
    (w : world) (q : string) (cfg : SMTPConfig) (n : nat) :
  db w !! q = None →
  no_classifier_answer q →
  smtp_attempts (ask (S n) q cfg w) =
    smtp_attempts w ++
      (if PyDict.mem (unanswered_queries w) q then []
       else [new_query_message q cfg])
  ∧ respond q cfg w =
      (Ret apology,
       snd (forward_query_to_admin q cfg (snd (add_to_db q placeholder w))))
  ∧ (∀ k, respond q cfg (ask (S k) q cfg w) = (Ret placeholder, ask (S k) q cfg w))
  ∧ (∀ w0, has_record w0 q → forward_query_to_admin q cfg w0 = (Ret tt, w0)).
Proof.
  intros Hq Hn.
  pose proof (escalate_eq w q cfg Hq Hn) as Hfirst.
  set (w1 := snd (forward_query_to_admin q cfg (snd (add_to_db q placeholder w)))) in *.
  assert (db w1 !! q = Some placeholder) as Hq1.
  { unfold w1. rewrite forward_db. simpl. apply lookup_insert_eq. }
  assert (∀ k, ask (S k) q cfg w = w1) as Hask.
  { intros k. simpl. rewrite Hfirst. simpl. by apply (ask_hit k q placeholder). }
  split; [|split; [done|split]].
  - rewrite Hask. unfold w1. by rewrite forward_attempts.
  - intros k. rewrite Hask. by apply respond_hit.
  - intros w0 Hw0. by apply forward_known.
Qed.

End Sequences.

(** ** The ledger and its history *)

Section Ledger.
Context `{Externals}.

(** One call moves the ledger as its events move the reading. *)
Lemma exec_tracked (c : call) (w : world) (q : string) :
  PyDict.mem (unanswered_queries (exec c w)) q =
  fold_left (step_tracked q) (events_of c w)
            (PyDict.mem (unanswered_queries w) q).
Proof.
  destruct c as [q' a'|q' cfg|q' a'|q'|q' cfg]; simpl.
  - done.
  - destruct (respond_cases q' cfg w) as [[-> ->]|(-> & _ & ->)]; [done|].
    simpl. rewrite forward_mem. simpl. by destruct (String.eqb q' q).
  - rewrite PyDictFacts.mem_set. by destruct (String.eqb q' q).
  - unfold mark_resolved. step_m.
    destruct (PyDict.mem (unanswered_queries w) q') eqn:Hq'; simpl.
    + rewrite PyDictFacts.mem_del. by destruct (String.eqb q' q).
    + destruct (String.eqb_spec q' q) as [<-|]; done.
  - rewrite forward_mem. by destruct (String.eqb q' q).
Qed.

Lemma ledger_step (c : call) (w : world) (h : list event) :
  ledger_matches tracked w h →
  ledger_matches tracked (exec c w) (h ++ events_of c w).
Proof.
  intros Hinv q. specialize (Hinv q). unfold has_record, tracked in *.
  rewrite fold_left_app, exec_tracked.
  destruct (PyDict.mem (unanswered_queries w) q),
           (fold_left (step_tracked q) h false);
    try done; destruct Hinv as [H1 H2];
    [by specialize (H1 eq_refl) | by specialize (H2 eq_refl)].
Qed.

Lemma ledger_run (cs : list call) (w : world) (h : list event) :
  ledger_matches tracked w h →
  ledger_matches tracked (run cs w) (h ++ history cs w).
Proof.
  revert w h. induction cs as [|c cs IH]; intros w h Hinv; simpl.
  - by rewrite app_nil_r.
  - rewrite app_assoc. apply IH. by apply ledger_step.
Qed.

(** C3 (amended).  In every state reached from a new bot and administrator
    by [add_to_db], [respond], [provide_answer], [mark_resolved] and
    [forward_query_to_admin] calls, the ledger has a record for [q] exactly
    if [q] has been forwarded (whatever the outcome of the mail exchange)
    or given an answer through [provide_answer], and has not been marked
    resolved since.  The relation holds at the start and each call
    preserves it. *)
Theorem ledger_invariant :
  ledger_matches tracked initial []
  ∧ (∀ c w h, ledger_matches tracked w h →
              ledger_matches tracked (exec c w) (h ++ events_of c w))
  ∧ (∀ cs, ledger_matches tracked (run cs initial) (history cs initial)).
Proof.
  assert (ledger_matches tracked initial []) as H0.
  { intros q. unfold has_record, tracked. simpl. done. }
  split; [done|]. split.
  - intros c w h. apply ledger_step.
  - intros cs. apply (ledger_run cs initial [] H0).
Qed.

End Ledger.

(** ** The request handler *)

Section Handler.
Context `{Externals}.

Ltac case_respond :=
  match goal with
  | |- context [respond ?s ?c ?w] =>
      destruct (respond s c w) as [[?|?] ?]
  end.

Lemma bot_view_dict (request : HttpRequest) (d : list (string * pyval)) (w : world) :
  method request = "POST" →
  body request = Ret (PDict d) →
  bot_view request w =
    match default PNone (assoc d "user_input") with
    | PNone => (input_required, w)
    | user_input =>
        match respond_dyn user_input smtp_config_instance w with
        | (Ret bot_response, w') =>
            ({| content := ("bot_response", bot_response); status := 200 |}, w')
        | (Raise e, w') =>
            ({| content := ("error", exn_str e); status := 500 |}, w')
        end
    end.
Proof.
  intros Hm Hb. unfold bot_view. rewrite Hm, Hb. step_m.
  destruct (default PNone (assoc d "user_input")); try done;
    step_m; try case_respond; done.
Qed.

(** C9.  [bot_view] answers 400 "User input is required" exactly for a
    POST request whose body decodes to an object in which ["user_input"]
    is missing or null.  For any other value of the field, the empty
    string included, the value is handed to [respond] and the response is
    made from what [respond] returns or raises. *)
Theorem input_required_iff (request : HttpRequest) (w : world) :
  (fst (bot_view request w) = input_required ↔
     method request = "POST" ∧
     ∃ d, body request = Ret (PDict d) ∧
          (assoc d "user_input" = None ∨ assoc d "user_input" = Some PNone))
  ∧ (∀ d user_input,
       method request = "POST" →
       body request = Ret (PDict d) →
       assoc d "user_input" = Some user_input →
       user_input ≠ PNone →
       bot_view request w =
         match respond_dyn user_input smtp_config_instance w with
         | (Ret bot_response, w') =>
             ({| content := ("bot_response", bot_response); status := 200 |}, w')
         | (Raise e, w') =>
             ({| content := ("error", exn_str e); status := 500 |}, w')
         end)
  ∧ (∀ d,
       method request = "POST" →
       body request = Ret (PDict d) →
       assoc d "user_input" = Some (PStr EmptyString) →
       bot_view request w =
         match respond EmptyString smtp_config_instance w with
         | (Ret bot_response, w') =>
             ({| content := ("bot_response", bot_response); status := 200 |}, w')
         | (Raise e, w') =>
             ({| content := ("error", exn_str e); status := 500 |}, w')
         end).
Proof.
  split; [|split].
  - split.
    + unfold bot_view.
      destruct (String.eqb_spec (method request) "POST") as [Hm|Hm];
        [|discriminate].
      intros Hr. split; [done|].
      destruct (body request) as [data|e] eqn:Hb; [|step_m; discriminate].
      destruct data as [| | | | |l|d];
        try (revert Hr; step_m; discriminate).
      exists d. split; [done|].
      revert Hr. step_m.
      destruct (assoc d "user_input") as [v|]; [|by left].
      destruct v; simpl; try (by right); step_m;
        try case_respond; discriminate.
    + intros (Hm & d & Hb & Hd).
      rewrite (bot_view_dict request d w Hm Hb).
      by destruct Hd as [->| ->].
  - intros d user_input Hm Hb Hd Hne.
    rewrite (bot_view_dict request d w Hm Hb), Hd. simpl.
    by destruct user_input.
  - intros d Hm Hb Hd.
    by rewrite (bot_view_dict request d w Hm Hb), Hd.
Qed.

End Handler.

(** ** Worked instances in the concrete environment *)

Module Instances.
Import Demo.

(** Nothing in "what time is the next flight" is a greeting, a gratitude
    word, "mission", "vision", "values" or a value name. *)
Lemma flight_unanswered (script : nat → smtp_outcome) :
  @no_classifier_answer (env script) flight.
Proof. eexists. repeat split; reflexivity. Qed.

Lemma escalation_effects_witness :
  fst (@respond delivers flight cfg initial)
    = Ret "I don't have an answer for that, sorry. 😔"
  ∧ db (snd (@respond delivers flight cfg initial)) = <[flight := placeholder]> ∅
  ∧ PyDict.get (unanswered_queries (snd (@respond delivers flight cfg initial))) flight
    = Some placeholder.
Proof.
  destruct (@escalation_effects delivers initial flight cfg eq_refl (flight_unanswered _))
    as (Hr & Hdb & Hrec).
  split; [exact Hr|]. split; [exact Hdb|]. apply Hrec; reflexivity.
Defined.

(** C1 as worded fails: the reply is not the bare apology sentence. *)
Lemma escalation_reply_counterexample :
  ¬ @escalation_reply_as_specified delivers initial flight cfg.
Proof.
  intros Hc. specialize (Hc eq_refl (flight_unanswered _)).
  vm_compute in Hc. discriminate Hc.
Qed.

Lemma notification_failure_witness :
  fst (@forward_query_to_admin fails flight cfg initial) = Ret tt
  ∧ PyDict.get (unanswered_queries (snd (@forward_query_to_admin fails flight cfg initial)))
      flight = Some forward_error
  ∧ fst (@respond fails flight cfg initial) = Ret apology
  ∧ PyDict.get (unanswered_queries (snd (@respond fails flight cfg initial))) flight
    = Some forward_error.
Proof.
  destruct (@notification_failure fails initial flight cfg refused
              eq_refl (or_introl eq_refl)) as (Hret & Hrec & Hresp).
  split; [exact Hret|]. split; [exact Hrec|].
  exact (Hresp eq_refl (flight_unanswered _)).
Defined.

Lemma intent_answer_frame_witness :
  ∃ answer,
    @respond delivers "hello" cfg initial = (Ret answer, initial)
    ∧ answer = "Hello there! How can I assist you today?".
Proof.
  destruct (@intent_answer_frame delivers initial "hello" cfg
              {| text := "hello"; tokens := ["hello"] |}
              eq_refl (conj eq_refl (or_introl eq_refl)))
    as (answer & Hr & Ha & _).
  exists answer. split; [exact Hr|]. vm_compute in Ha. congruence.
Defined.

Lemma values_enumeration_witness :
  @analyze_scia_values delivers
     {| text := "what are scia values"; tokens := String.words "what are scia values" |}
  = Some "Safety, Customer obsession, Integrity, Accountability"
  ∧ @analyze_scia_values delivers
     {| text := "Safety VALUES"; tokens := String.words "Safety VALUES" |}
  = Some "Safety, Customer obsession, Integrity, Accountability".
Proof.
  split.
  - exact (proj1 (@values_enumeration delivers
                    {| text := "what are scia values";
                       tokens := String.words "what are scia values" |} eq_refl)).
  - exact (proj1 (@values_enumeration delivers
                    {| text := "Safety VALUES";
                       tokens := String.words "Safety VALUES" |} eq_refl)).
Defined.

(** The whole of [respond] on the same question. *)
Lemma scia_values_reply :
  fst (@respond delivers "what are scia values" cfg initial)
  = Ret "Safety, Customer obsession, Integrity, Accountability".
Proof. reflexivity. Qed.

Lemma gratitude_before_later_greeting_witness :
  @analyze_greeting delivers {| text := "thanks hi"; tokens := ["thanks"; "hi"] |}
  = Some "You're welcome!".
Proof.
  apply (@gratitude_before_later_greeting delivers
           {| text := "thanks hi"; tokens := ["thanks"; "hi"] |}
           "thanks" ["hi"] "thanks").
  - reflexivity.
  - reflexivity.
  - simpl. left. reflexivity.
  - reflexivity.
Defined.

Lemma exact_match_witness :
  let w' := @run delivers
              [Respond flight cfg; MarkResolved flight; ProvideAnswer "fares" "see the fare table"]
              (snd (@add_to_db "opening hours" "9 to 5" initial)) in
  @respond delivers "opening hours" cfg w' = (Ret "9 to 5", w')
  ∧ @ask delivers 3 "opening hours" cfg w' = w'.
Proof.
  exact (@exact_match delivers initial "opening hours" "9 to 5" cfg
           [Respond flight cfg; MarkResolved flight;
            ProvideAnswer "fares" "see the fare table"] 3 eq_refl).
Defined.

Lemma resolution_round_trip_witness :
  fst (@respond delivers flight cfg (snd (@provide_answer flight "real answer" initial)))
    = Ret "real answer"
  ∧ ∃ pending,
      fst (@get_unanswered_queries
             (snd (@mark_resolved flight (snd (@provide_answer flight "real answer" initial)))))
        = Ret pending
      ∧ ¬ In flight pending.
Proof.
  destruct (@resolution_round_trip delivers
              (snd (@provide_answer flight "real answer" initial))
              flight "real answer" cfg) as (_ & _ & pending & Hp & Hnot & _).
  split.
  - exact (proj1 (@resolution_round_trip delivers initial flight "real answer" cfg)).
  - exists pending. split; [exact Hp | exact Hnot].
Defined.

Lemma idempotent_escalation_witness :
  length (smtp_attempts (@ask delivers 3 flight cfg initial)) = 1
  ∧ @respond delivers flight cfg (@ask delivers 1 flight cfg initial)
    = (Ret placeholder, @ask delivers 1 flight cfg initial).
Proof.
  destruct (@idempotent_escalation delivers initial flight cfg 2
              eq_refl (flight_unanswered _)) as (Hn & _ & Hlater & _).
  split.
  - rewrite Hn. reflexivity.
  - exact (Hlater 0).
Defined.

(** C2 as worded fails: with a ledger record for the question already
    there (here: after a direct [forward_query_to_admin]) and no entry in
    the knowledge base, three [respond] calls set out on no mail exchange. *)
Lemma one_attempt_counterexample :
  ¬ @one_attempt_as_specified delivers
      (@exec delivers (ForwardQueryToAdmin flight cfg) initial) flight cfg 2.
Proof.
  intros Hc. specialize (Hc eq_refl (flight_unanswered _)).
  vm_compute in Hc. discriminate Hc.
Qed.

Lemma ledger_invariant_witness :
  let cs := [Respond flight cfg; ProvideAnswer "fares" "see the fare table";
             MarkResolved flight] in
  ledger_matches tracked (@run delivers cs initial) (@history delivers cs initial)
  ∧ ledger_matches tracked
      (@exec delivers (MarkResolved "fares") (@run delivers cs initial))
      (@history delivers cs initial ++ [Resolved "fares"]).
Proof.
  intros cs.
  destruct (@ledger_invariant delivers) as (_ & Hstep & Hrun).
  split; [exact (Hrun cs)|].
  exact (Hstep (MarkResolved "fares") _ _ (Hrun cs)).
Defined.

(** C3 as worded fails: [provide_answer] on a question that was never
    forwarded leaves a record for it in the ledger. *)
Lemma ledger_invariant_counterexample :
  ¬ ledger_matches forwarded_unresolved
      (@run delivers [ProvideAnswer "fares" "see the fare table"] initial)
      (@history delivers [ProvideAnswer "fares" "see the fare table"] initial).
Proof.
  intros Hc. destruct (Hc "fares") as [Hfwd _].
  specialize (Hfwd eq_refl). vm_compute in Hfwd. discriminate Hfwd.
Qed.

Lemma input_required_iff_witness :
  fst (@bot_view delivers (post (PDict [])) initial) = input_required
  ∧ fst (@bot_view delivers (post (PDict [("user_input", PNone)])) initial) = input_required
  ∧ @bot_view delivers (post (PDict [("user_input", PStr EmptyString)])) initial
    = ({| content := ("bot_response", apology); status := 200 |},
       snd (@respond delivers EmptyString cfg initial)).
Proof.
  split; [|split].
  - apply (proj1 (@input_required_iff delivers (post (PDict [])) initial)).
    split; [reflexivity|]. exists []. split; [reflexivity | left; reflexivity].
  - apply (proj1 (@input_required_iff delivers
                    (post (PDict [("user_input", PNone)])) initial)).
    split; [reflexivity|]. eexists. split; [reflexivity | right; reflexivity].
  - rewrite (proj2 (proj2 (@input_required_iff delivers
               (post (PDict [("user_input", PStr EmptyString)])) initial))
               _ eq_refl eq_refl eq_refl).
    reflexivity.
Defined.

End Instances.

(** * Further properties *)

(** ** Substrings *)

Lemma append_cons (c : ascii) (a b : string) :
  String c a +:+ b = String c (a +:+ b).
Proof. reflexivity. Qed.

Lemma prefix_spec (kw s : string) :
  String.prefix kw s = true ↔ ∃ post, s = kw +:+ post.
Proof.
  revert s. induction kw as [|c kw IH]; intros s.
  - destruct s; simpl; (split; [intros _; by eexists | done]).
  - destruct s as [|c' s]; simpl.
    + split; [discriminate | intros [post Hp]; discriminate Hp].
    + setoid_rewrite append_cons.
      destruct (Ascii.ascii_dec c c') as [<-|Hne].
      * rewrite IH. split; intros [post Hp]; exists post; congruence.
      * split; [discriminate | intros [post Hp]; congruence].
Qed.

Lemma contains_spec (kw s : string) :
  contains kw s = true ↔ ∃ pre post, s = pre +:+ kw +:+ post.
Proof.
  induction s as [|c s IH]; cbn [contains].
  - rewrite orb_false_r, prefix_spec. split.
    + intros [post Hp]. by exists EmptyString, post.
    + intros (pre & post & Hp). destruct pre; [by exists post | discriminate Hp].
  - rewrite orb_true_iff, IH, prefix_spec. split.
    + intros [[post Hp]|(pre & post & Hp)].
      * by exists EmptyString, post.
      * exists (String c pre), post. rewrite append_cons. by rewrite Hp.
    + intros (pre & post & Hp). destruct pre as [|c' pre].
      * left. by exists post.
      * right. exists pre, post. rewrite append_cons in Hp. congruence.
Qed.

(** ** The three analyses, case by case *)

Section Analyses.
Context `{Externals}.

Lemma greeting_loop_without_gratitude (doc : Doc) (rest : list string) :
  existsb is_gratitude (tokens doc) = false →
  greeting_loop doc rest = if existsb is_greeting rest then Some hello else None.
Proof.
  intros Hg. induction rest as [|token rest IH]; [done|].
  cbn [greeting_loop existsb]. fold (is_greeting token).
  destruct (is_greeting token); [done|].
  change (existsb _ (tokens doc)) with (existsb is_gratitude (tokens doc)).
  by rewrite Hg.
Qed.

Lemma greeting_loop_with_gratitude (doc : Doc) (rest : list string) :
  existsb is_gratitude (tokens doc) = true →
  greeting_loop doc rest =
    match rest with
    | [] => None
    | first :: _ => if is_greeting first then Some hello else Some welcome
    end.
Proof.
  intros Hg. destruct rest as [|token rest]; [done|].
  cbn [greeting_loop]. fold (is_greeting token).
  destruct (is_greeting token); [done|].
  change (existsb _ (tokens doc)) with (existsb is_gratitude (tokens doc)).
  by rewrite Hg.
Qed.

(** X1.  [analyze_greeting] returns the greeting reply exactly in two
    situations: the first token is a greeting word; or no token is a
    gratitude word and some token is a greeting word. *)
Theorem greeting_reply_iff (doc : Doc) :
  analyze_greeting doc = Some hello ↔
    (∃ first rest, tokens doc = first :: rest ∧ is_greeting first = true)
    ∨ (existsb is_gratitude (tokens doc) = false
       ∧ existsb is_greeting (tokens doc) = true).
Proof.
  unfold analyze_greeting.
  destruct (existsb is_gratitude (tokens doc)) eqn:Hg.
  - rewrite greeting_loop_with_gratitude by done.
    destruct (tokens doc) as [|first rest]; simpl.
    + split; [discriminate | intros [(f & r & Hfr & _)|[Hc _]]; discriminate].
    + destruct (is_greeting first) eqn:Hf.
      * split; [intros _; left; by exists first, rest | done].
      * split; [discriminate|].
        intros [(f & r & Hfr & Hf')|[Hc _]]; [|discriminate].
        injection Hfr as <- <-. congruence.
  - rewrite greeting_loop_without_gratitude by done.
    destruct (existsb is_greeting (tokens doc)) eqn:He.
    + split; [intros _; by right | done].
    + split; [discriminate|].
      intros [(f & r & Hfr & Hf')|[_ Hc]]; [|discriminate].
      rewrite Hfr in He. simpl in He. rewrite Hf' in He. discriminate.
Qed.

(** X2.  [analyze_greeting] returns [None] exactly when no token of the
    document is a greeting word and none is a gratitude word -- in
    particular for a document without tokens. *)
Theorem greeting_none_iff (doc : Doc) :
  analyze_greeting doc = None ↔
    existsb is_greeting (tokens doc) = false
    ∧ existsb is_gratitude (tokens doc) = false.
Proof.
  unfold analyze_greeting.
  destruct (existsb is_gratitude (tokens doc)) eqn:Hg.
  - rewrite greeting_loop_with_gratitude by done.
    destruct (tokens doc) as [|first rest]; [discriminate Hg|].
    split; [|intros [_ Hc]; discriminate].
    by destruct (is_greeting first).
  - rewrite greeting_loop_without_gratitude by done.
    destruct (existsb is_greeting (tokens doc)); split; try done.
    intros [Hc _]. discriminate.
Qed.

(** X3.  Mission before vision: when the lower-cased text contains
    "mission" anywhere, [analyze_mission_vision] returns the mission
    statement, whether or not "vision" occurs as well. *)
Theorem mission_before_vision (doc : Doc) (pre post : string) :
  lowered doc = pre +:+ "mission" +:+ post →
  analyze_mission_vision doc = Some mission_statement.
Proof.
  intros Ht. unfold analyze_mission_vision, mission_keywords.
  cbn [existsb]. fold (lowered doc).
  assert (contains "mission" (lowered doc) = true) as ->; [|done].
  apply contains_spec. by exists pre, post.
Qed.

(** X4.  [analyze_mission_vision] returns the vision statement exactly when
    the lower-cased text contains "vision" and not "mission", and [None]
    exactly when it contains neither. *)
Theorem vision_and_none_iff (doc : Doc) :
  (analyze_mission_vision doc = Some vision_statement ↔
     contains "mission" (lowered doc) = false
     ∧ contains "vision" (lowered doc) = true)
  ∧ (analyze_mission_vision doc = None ↔
     contains "mission" (lowered doc) = false
     ∧ contains "vision" (lowered doc) = false).
Proof.
  unfold analyze_mission_vision, mission_keywords, vision_keywords.
  cbn [existsb]. fold (lowered doc).
  destruct (contains "mission" (lowered doc)),
           (contains "vision" (lowered doc)); simpl;
    (split; split; try done; try discriminate; intros [? ?]; discriminate).
Qed.


Lemma scenario_loop_none (doc : Doc) (keywords : list string) :
  scenario_loop doc keywords = None ↔
  forallb (fun k => negb (contains k (lowered doc))) keywords = true.
Proof.
  induction keywords as [|k keywords IH]; cbn [scenario_loop forallb]; [done|].
  fold (lowered doc). destruct (contains k (lowered doc)); simpl; [|exact IH].
  split; discriminate.
Qed.


(** X6.  [analyze_scia_values] returns [None] exactly when the lower-cased
    text contains neither "values" nor any of the four value names. *)
Theorem scia_values_none_iff (doc : Doc) :
  analyze_scia_values doc = None ↔
    contains "values" (lowered doc) = false
    ∧ contains "safety" (lowered doc) = false
    ∧ contains "customer obsession" (lowered doc) = false
    ∧ contains "integrity" (lowered doc) = false
    ∧ contains "accountability" (lowered doc) = false.
Proof.
  unfold analyze_scia_values, values_keyword. fold (lowered doc).
  destruct (contains "values" (lowered doc)).
  - split; [discriminate | intros [Hc _]; discriminate].
  - rewrite scenario_loop_none. unfold scia_keywords. cbn [forallb].
    rewrite !andb_true_iff, !negb_true_iff. tauto.
Qed.

(** X7.  [get_scenario_for_value] never returns the empty string; it
    returns the default sentence for every value whose lower-cased form is
    none of the four value names, and otherwise the sentence the table
    holds for that form. *)
Theorem scenario_lookup (value : string) :
  get_scenario_for_value value ≠ EmptyString
  ∧ (¬ In (str_lower value) scia_keywords →
     get_scenario_for_value value = default_message)
  ∧ (∀ sentence, PyDict.get scenarios (str_lower value) = Some sentence →
     get_scenario_for_value value = sentence).
Proof.
  unfold get_scenario_for_value, scenarios, scia_keywords.
  cbn [PyDict.get In].
  repeat match goal with
  | |- context [String.eqb ?a (str_lower value)] =>
      destruct (String.eqb_spec a (str_lower value))
  end; simpl; (split; [discriminate|]); (split; [|congruence]);
  intros Hn; try done; exfalso; apply Hn; tauto.
Qed.

End Analyses.

(** ** Order and uniqueness of dictionary keys *)

Module PyDictOrder.
Import PyDict.

Lemma mem_cons_ne (k' v' k : string) (d : t) :
  String.eqb k' k = false → mem ((k', v') :: d) k = mem d k.
Proof. intros Hne. unfold mem. simpl. by rewrite Hne. Qed.

Lemma keys_set (d : t) (k v : string) :
  keys (set d k v) = if mem d k then keys d else keys d ++ [k].
Proof.
  induction d as [|[k' v'] d IH]; [done|].
  cbn [set]. destruct (String.eqb k' k) eqn:E.
  - unfold mem. simpl. by rewrite E.
  - rewrite mem_cons_ne by done.
    change (keys ((k', v') :: set d k v)) with (k' :: keys (set d k v)).
    rewrite IH. by destruct (mem d k).
Qed.

Lemma NoDup_keys_set (d : t) (k v : string) :
  NoDup (keys d) → NoDup (keys (set d k v)).
Proof.
  intros Hd. rewrite keys_set. destruct (mem d k) eqn:Hk; [done|].
  apply NoDup_app. split; [done|]. split; [|apply NoDup_singleton].
  intros x Hx ->%list_elem_of_singleton.
  apply list_elem_of_In, PyDictFacts.In_keys in Hx. congruence.
Qed.

Lemma NoDup_keys_del (d : t) (k : string) :
  NoDup (keys d) → NoDup (keys (del d k)).
Proof.
  induction d as [|[k' v'] d IH]; [done|].
  cbn [keys map fst del]. intros [Hnot Hd]%NoDup_cons.
  destruct (String.eqb k' k); [by apply IH|].
  cbn [keys map fst]. apply NoDup_cons. split; [|by apply IH].
  intros Hin. apply Hnot.
  apply list_elem_of_In, PyDictFacts.In_keys in Hin.
  rewrite PyDictFacts.mem_del in Hin. apply andb_prop in Hin as [_ Hin].
  by apply list_elem_of_In, PyDictFacts.In_keys.
Qed.

End PyDictOrder.

Lemma append_inv_head (p a b : string) : p +:+ a = p +:+ b → a = b.
Proof.
  induction p as [|c p IH]; [done|].
  rewrite !append_cons. intros Hp. apply IH. congruence.
Qed.

(** ** What a sequence of calls keeps *)

Section Kept.
Context `{Externals}.

Lemma forward_pending (q : string) (cfg : SMTPConfig) (w : world) :
  pending (snd (forward_query_to_admin q cfg w)) =
  if PyDict.mem (unanswered_queries w) q then pending w else pending w ++ [q].
Proof.
  unfold pending. destruct (PyDict.mem (unanswered_queries w) q) eqn:Hq.
  - by rewrite forward_known.
  - destruct (outcome_for q cfg w) eqn:Ho.
    + rewrite forward_delivered by done. simpl.
      by rewrite PyDictOrder.keys_set, Hq.
    + rewrite (forward_raised_before _ _ _ e) by done. simpl.
      by rewrite PyDictOrder.keys_set, Hq.
    + rewrite (forward_raised_on_quit _ _ _ e) by done. simpl.
      rewrite !PyDictOrder.keys_set, PyDictFacts.mem_set, String.eqb_refl, Hq.
      done.
Qed.

(** X8.  [respond] raises exactly when the text misses the knowledge base
    and the language pipeline raises on it -- the exception is the
    pipeline's -- and a call that raises leaves the world as it was. *)
Theorem respond_raises_iff (w : world) (q : string) (cfg : SMTPConfig) (e : exn) :
  (fst (respond q cfg w) = Raise e ↔
     db w !! q = None ∧ process_input q = Raise e)
  ∧ (fst (respond q cfg w) = Raise e → snd (respond q cfg w) = w).
Proof.
  destruct (db w !! q) as [a|] eqn:Hq.
  { rewrite (respond_hit q a) by done. simpl.
    split; [split; [discriminate | intros [? _]; discriminate] | done]. }
  destruct (process_input q) as [nlp_doc|e'] eqn:Hd.
  2:{ rewrite (respond_raises q cfg w e') by done. simpl.
      split; [|done]. split; [intros ?; split; congruence | intros [_ ?]; congruence]. }
  destruct (nlp_answer nlp_doc) as [r|] eqn:Ha.
  { rewrite (respond_intent q cfg w nlp_doc r) by done. simpl.
    split; [split; [discriminate | intros [_ ?]; discriminate] | done]. }
  rewrite (respond_escalate q cfg w nlp_doc) by done. simpl.
  split; [split; [discriminate | intros [_ ?]; discriminate] | discriminate].
Qed.

Lemma exec_db_grows (c : call) (w : world) (q : string) :
  is_Some (db w !! q) → is_Some (db (exec c w) !! q).
Proof.
  intros Hq. destruct c as [q' a'|q' cfg|q' a'|q'|q' cfg]; simpl.
  - rewrite lookup_insert_is_Some. destruct (decide (q' = q)); auto.
  - destruct (respond_cases q' cfg w) as [[_ ->]|(_ & _ & ->)]; [done|].
    simpl. rewrite forward_db. simpl.
    rewrite lookup_insert_is_Some. destruct (decide (q' = q)); auto.
  - rewrite lookup_insert_is_Some. destruct (decide (q' = q)); auto.
  - unfold mark_resolved. step_m.
    by destruct (PyDict.mem (unanswered_queries w) q').
  - by rewrite forward_db.
Qed.

(** X9.  No call removes an entry of the knowledge base: a question that
    has an answer in [db] still has one after any sequence of [add_to_db],
    [respond], [provide_answer], [mark_resolved] and
    [forward_query_to_admin] calls. *)
Theorem db_entries_stay (cs : list call) (w : world) (q : string) :
  is_Some (db w !! q) → is_Some (db (run cs w) !! q).
Proof.
  revert w. induction cs as [|c cs IH]; intros w Hq; [done|].
  simpl. apply IH. by apply exec_db_grows.
Qed.

Lemma ledger_in_db_step (c : call) (w : world) :
  direct_forward c = false →
  (∀ q, has_record w q → is_Some (db w !! q)) →
  ∀ q, has_record (exec c w) q → is_Some (db (exec c w) !! q).
Proof.
  unfold has_record. intros Hc Hinv q.
  destruct c as [q' a'|q' cfg|q' a'|q'|q' cfg]; simpl in *; try discriminate.
  - intros Hq. rewrite lookup_insert_is_Some.
    destruct (decide (q' = q)); auto.
  - destruct (respond_cases q' cfg w) as [[_ ->]|(_ & _ & ->)]; [by apply Hinv|].
    simpl. rewrite forward_mem, forward_db. simpl.
    rewrite lookup_insert_is_Some. intros Hq.
    destruct (String.eqb_spec q' q) as [->|Hne]; [by left|].
    right. split; [done|]. by apply Hinv.
  - rewrite PyDictFacts.mem_set, lookup_insert_is_Some. intros Hq.
    destruct (String.eqb_spec q' q) as [->|Hne]; [by left|].
    right. split; [done|]. by apply Hinv.
  - unfold mark_resolved. step_m.
    destruct (PyDict.mem (unanswered_queries w) q'); simpl; [|by apply Hinv].
    rewrite PyDictFacts.mem_del. intros [_ Hq]%andb_prop. by apply Hinv.
Qed.

(** X10.  As long as [forward_query_to_admin] is called by [respond] only,
    every question with a ledger record also has an entry in the knowledge
    base: the relation holds at the start and after any sequence of
    [add_to_db], [respond], [provide_answer] and [mark_resolved] calls made
    from a state in which it holds. *)
Theorem ledger_within_db (cs : list call) (w : world) :
  forallb (fun c => negb (direct_forward c)) cs = true →
  (∀ q, has_record w q → is_Some (db w !! q)) →
  ∀ q, has_record (run cs w) q → is_Some (db (run cs w) !! q).
Proof.
  revert w. induction cs as [|c cs IH]; intros w Hcs Hinv; [done|].
  cbn [forallb] in Hcs. apply andb_prop in Hcs as [Hc Hcs].
  apply negb_true_iff in Hc. simpl. apply IH; [done|].
  by apply ledger_in_db_step.
Qed.

Lemma mailed_once_more_db (w : world) (q a : string) :
  mailed_once w → mailed_once (set_db (fun d => <[q := a]> d) w).
Proof.
  intros [Hnd Hq]. split; [done|]. simpl. intros m Hm.
  destruct (Hq m Hm) as (q0 & Hs & Hin). exists q0. split; [done|].
  rewrite lookup_insert_is_Some. destruct (decide (q = q0)); auto.
Qed.

Lemma mailed_once_step (c : call) (w : world) :
  direct_forward c = false → mailed_once w → mailed_once (exec c w).
Proof.
  intros Hc Hinv.
  destruct c as [q' a'|q' cfg|q' a'|q'|q' cfg]; simpl in *; try discriminate.
  - by apply mailed_once_more_db.
  - destruct (respond_cases q' cfg w) as [[_ ->]|(_ & Hq' & ->)]; [done|].
    simpl.
    pose proof (mailed_once_more_db w q' placeholder Hinv) as [Hnd Hq].
    set (w0 := set_db (fun d => <[q' := placeholder]> d) w) in *.
    unfold mailed_once. rewrite forward_attempts, forward_db.
    destruct (PyDict.mem (unanswered_queries w0) q').
    { rewrite app_nil_r. by split. }
    split.
    + rewrite map_app. apply NoDup_app. split; [done|].
      split; [|apply NoDup_singleton].
      intros x Hx ->%list_elem_of_singleton.
      apply list_elem_of_In, in_map_iff in Hx as (m & Hs & Hm).
      destruct Hinv as [_ Hold]. destruct (Hold m Hm) as (q0 & Hs0 & Hin).
      rewrite Hs0 in Hs. apply append_inv_head in Hs as ->.
      rewrite Hq' in Hin. by destruct Hin.
    + intros m [Hm|[<-|[]]]%in_app_or; [by apply Hq|].
      exists q'. split; [done|]. simpl. rewrite lookup_insert_eq. by eexists.
  - by apply (mailed_once_more_db w q' a').
  - unfold mark_resolved. step_m.
    by destruct (PyDict.mem (unanswered_queries w) q').
Qed.

(** X11.  As long as [forward_query_to_admin] is called by [respond] only,
    no question is mailed twice: after any sequence of [add_to_db],
    [respond], [provide_answer] and [mark_resolved] calls on a new bot and
    administrator, the subjects of the messages set out on are pairwise
    different -- also where a mail exchange failed or the record was marked
    resolved in between. *)
Theorem no_question_mailed_twice (cs : list call) :
  forallb (fun c => negb (direct_forward c)) cs = true →
  NoDup (map msg_subject (smtp_attempts (run cs initial))).
Proof.
  assert (∀ w, forallb (fun c => negb (direct_forward c)) cs = true →
               mailed_once w → mailed_once (run cs w)) as Hrun.
  { induction cs as [|c cs IH]; intros w Hcs Hinv; [done|].
    cbn [forallb] in Hcs. apply andb_prop in Hcs as [Hc Hcs].
    apply negb_true_iff in Hc. simpl. apply IH; [done|].
    by apply mailed_once_step. }
  intros Hcs. apply (Hrun initial Hcs). split; [apply NoDup_nil_2 | intros m []].
Qed.

Lemma NoDup_pending_step (c : call) (w : world) :
  NoDup (pending w) → NoDup (pending (exec c w)).
Proof.
  assert (∀ w0 q, NoDup (pending w0) →
            NoDup (if PyDict.mem (unanswered_queries w0) q
                   then pending w0 else pending w0 ++ [q])) as Happend.
  { intros w0 q Hnd. unfold pending in *.
    rewrite <- (PyDictOrder.keys_set _ q q). by apply PyDictOrder.NoDup_keys_set. }
  intros Hnd. destruct c as [q' a'|q' cfg|q' a'|q'|q' cfg]; simpl.
  - done.
  - destruct (respond_cases q' cfg w) as [[_ ->]|(_ & _ & ->)]; [done|].
    simpl. rewrite forward_pending. by apply (Happend (set_db _ w)).
  - by apply PyDictOrder.NoDup_keys_set.
  - unfold mark_resolved. step_m.
    destruct (PyDict.mem (unanswered_queries w) q'); [|done].
    by apply PyDictOrder.NoDup_keys_del.
  - rewrite forward_pending. by apply Happend.
Qed.

(** X12.  The list returned by [get_unanswered_queries] never names a
    question twice: free of duplicates at the start, it stays so under every
    sequence of calls. *)
Theorem pending_no_duplicates (cs : list call) (w : world) :
  NoDup (pending w) → NoDup (pending (run cs w)).
Proof.
  revert w. induction cs as [|c cs IH]; intros w Hnd; [done|].
  simpl. apply IH. by apply NoDup_pending_step.
Qed.

End Kept.

(** ** The administrator's methods *)

Section AdminFacts.
Context `{Externals}.

Lemma mark_resolved_world (q : string) (w : world) :
  snd (mark_resolved q w) =
  set_unanswered_queries (fun u => PyDict.del u q) w
  ∨ (PyDict.mem (unanswered_queries w) q = false ∧ mark_resolved q w = (Ret tt, w)).
Proof.
  unfold mark_resolved. step_m.
  destruct (PyDict.mem (unanswered_queries w) q); [by left | by right].
Qed.

Lemma del_absent (d : PyDict.t) (k : string) :
  PyDict.mem d k = false → PyDict.del d k = d.
Proof.
  induction d as [|[k' v'] d IH]; [done|]. unfold PyDict.mem. simpl.
  destruct (String.eqb k' k) eqn:E; [discriminate|].
  intros Hk. f_equal. apply IH. unfold PyDict.mem. exact Hk.
Qed.

(** X13.  [get_response(q)] returns the answer last given through
    [provide_answer(q, a)]; it returns the default sentence once [q] has been
    marked resolved, and for every question without a record. *)
Theorem get_response_tracks (w : world) (q a : string) :
  fst (get_response q (snd (provide_answer q a w))) = Ret a
  ∧ fst (get_response q (snd (mark_resolved q w)))
    = Ret "I don't have an answer for that, sorry."
  ∧ (PyDict.mem (unanswered_queries w) q = false →
     fst (get_response q w) = Ret "I don't have an answer for that, sorry.").
Proof.
  assert (∀ w0, PyDict.mem (unanswered_queries w0) q = false →
            fst (get_response q w0) = Ret default_message) as Hnone.
  { intros w0. unfold get_response, gets, PyDict.mem. simpl.
    by destruct (PyDict.get (unanswered_queries w0) q). }
  split; [|split; [|apply Hnone]].
  - unfold get_response. step_m. by rewrite PyDictFacts.get_set_eq.
  - destruct (mark_resolved_world q w) as [->|[Hq ->]]; [|by apply Hnone].
    apply Hnone. simpl. by rewrite PyDictFacts.mem_del, String.eqb_refl.
Qed.

(** X14.  [has_unanswered_queries] returns [True] exactly when some
    question has a record in the ledger. *)
Theorem has_unanswered_iff (w : world) :
  fst (has_unanswered_queries w) = Ret true ↔ ∃ q, has_record w q.
Proof.
  unfold has_unanswered_queries, gets, has_record. simpl.
  destruct (unanswered_queries w) as [|[k v] u]; simpl.
  - split; [discriminate | intros [q Hq]; discriminate].
  - split; [|done]. intros _. exists k. unfold PyDict.mem. simpl.
    by rewrite String.eqb_refl.
Qed.

(** X15.  [mark_resolved(q)] touches nothing but the record of [q]: the
    knowledge base, the log and the mail attempts stay, every other record
    keeps its status; it does nothing when [q] has no record, and marking
    twice is the same as marking once. *)
Theorem mark_resolved_frame (w : world) (q : string) :
  db (snd (mark_resolved q w)) = db w
  ∧ log (snd (mark_resolved q w)) = log w
  ∧ smtp_attempts (snd (mark_resolved q w)) = smtp_attempts w
  ∧ (∀ q', q' ≠ q →
       PyDict.get (unanswered_queries (snd (mark_resolved q w))) q'
       = PyDict.get (unanswered_queries w) q')
  ∧ (PyDict.mem (unanswered_queries w) q = false → mark_resolved q w = (Ret tt, w))
  ∧ snd (mark_resolved q (snd (mark_resolved q w))) = snd (mark_resolved q w).
Proof.
  destruct (mark_resolved_world q w) as [Hw|[Hq Hw]]; rewrite Hw; simpl.
  - repeat split; try done.
    + intros q' Hne. rewrite PyDictFacts.get_del.
      destruct (String.eqb_spec q q'); [congruence | done].
    + intros Hq. destruct w as [d u l s]; simpl in *.
      unfold mark_resolved. step_m. by rewrite Hq.
    + destruct (mark_resolved_world q (set_unanswered_queries
                  (fun u => PyDict.del u q) w)) as [->|[_ ->]]; [|done].
      destruct w as [d u l s]. unfold set_unanswered_queries. simpl.
      f_equal. apply del_absent.
      by rewrite PyDictFacts.mem_del, String.eqb_refl.
  - repeat split; try done. by rewrite Hw.
Qed.

(** X16.  The ledger keeps insertion order: [provide_answer] and
    [forward_query_to_admin] put a question without a record at the end of
    the list that [get_unanswered_queries] returns, and leave the list as it
    is for a question that has one. *)
Theorem insertion_order (w : world) (q a : string) (cfg : SMTPConfig) :
  fst (get_unanswered_queries (snd (provide_answer q a w)))
    = Ret (if PyDict.mem (unanswered_queries w) q
           then pending w else pending w ++ [q])
  ∧ fst (get_unanswered_queries (snd (forward_query_to_admin q cfg w)))
    = Ret (if PyDict.mem (unanswered_queries w) q
           then pending w else pending w ++ [q]).
Proof.
  split.
  - unfold get_unanswered_queries, gets. simpl. by rewrite PyDictOrder.keys_set.
  - pose proof (forward_pending q cfg w) as Hp. unfold pending in Hp at 1.
    unfold get_unanswered_queries, gets. simpl. by rewrite Hp.
Qed.

(** X17.  When the message was handed over and only closing the session
    raised, [forward_query_to_admin] logs the success and then the error,
    and the ledger ends with the error status for the question, not the
    placeholder. *)
Theorem sent_but_recorded_as_error
    (w : world) (q : string) (cfg : SMTPConfig) (e : exn) :
  PyDict.mem (unanswered_queries w) q = false →
  outcome_for q cfg w = RaisedOnQuit e →
  let w' := snd (forward_query_to_admin q cfg w) in
  log w' = log w ++
    [(INFO, "Query forwarded successfully: " +:+ q);
     (ERROR, "Error forwarding query '" +:+ q +:+ "': " +:+ exn_str e)]
  ∧ PyDict.get (unanswered_queries w') q
    = Some "Error forwarding to admin. Please try again."
  ∧ smtp_attempts w' = smtp_attempts w ++ [new_query_message q cfg].
Proof.
  intros Hq Ho. rewrite (forward_raised_on_quit _ _ _ e) by done. simpl.
  split; [by rewrite <- app_assoc|]. split; [|done].
  apply PyDictFacts.get_set_eq.
Qed.

(** X18.  [forward_query_to_admin(q)] leaves the knowledge base and the
    record of every other question as they are, whatever the outcome. *)
Theorem forward_frame (w : world) (q q' : string) (cfg : SMTPConfig) :
  q' ≠ q →
  db (snd (forward_query_to_admin q cfg w)) = db w
  ∧ PyDict.get (unanswered_queries (snd (forward_query_to_admin q cfg w))) q'
    = PyDict.get (unanswered_queries w) q'.
Proof.
  intros Hne. split; [apply forward_db|].
  destruct (PyDict.mem (unanswered_queries w) q) eqn:Hq.
  - by rewrite forward_known.
  - destruct (outcome_for q cfg w) eqn:Ho.
    + rewrite forward_delivered by done. simpl.
      by rewrite PyDictFacts.get_set_ne.
    + rewrite (forward_raised_before _ _ _ e) by done. simpl.
      by rewrite PyDictFacts.get_set_ne.
    + rewrite (forward_raised_on_quit _ _ _ e) by done. simpl.
      by rewrite !PyDictFacts.get_set_ne.
Qed.

(** X19.  Marking an escalated question resolved without giving an answer
    removes its record but not the placeholder in the knowledge base:
    [respond] goes on returning the placeholder for that question, sets out
    on no mail exchange and creates no new record. *)
Theorem resolved_without_answer (w : world) (q : string) (cfg : SMTPConfig) :
  db w !! q = None →
  no_classifier_answer q →
  let w' := snd (mark_resolved q (snd (respond q cfg w))) in
  ¬ has_record w' q
  ∧ respond q cfg w' =
      (Ret "Forwarded to admin's email. Waiting for response.", w').
Proof.
  intros Hq Hn w'. unfold w'. rewrite (escalate_eq w q cfg Hq Hn). simpl.
  set (w1 := snd (forward_query_to_admin q cfg _)).
  assert (db w1 !! q = Some placeholder) as Hdb.
  { unfold w1. rewrite forward_db. simpl. apply lookup_insert_eq. }
  assert (PyDict.mem (unanswered_queries w1) q = true) as Hrec.
  { unfold w1. by rewrite forward_mem, String.eqb_refl. }
  destruct (mark_resolved_world q w1) as [->|[Hc _]]; [|congruence].
  split.
  - unfold has_record. simpl. by rewrite PyDictFacts.mem_del, String.eqb_refl.
  - by apply respond_hit.
Qed.

(** X20.  After [mark_resolved(q)], a direct [forward_query_to_admin(q)]
    sets out on a new mail exchange, whatever was sent for [q] before. *)
Theorem forward_after_resolve (w : world) (q : string) (cfg : SMTPConfig) :
  smtp_attempts (snd (forward_query_to_admin q cfg (snd (mark_resolved q w))))
  = smtp_attempts w ++ [new_query_message q cfg].
Proof.
  rewrite forward_attempts.
  destruct (mark_resolved_world q w) as [->|[Hq ->]]; simpl.
  - by rewrite PyDictFacts.mem_del, String.eqb_refl.
  - by rewrite Hq.
Qed.

End AdminFacts.

(** ** The request handler, request after request *)

Section HandlerFacts.
Context `{Externals}.

Lemma respond_raise_keeps (s : string) (cfg : SMTPConfig) (w : world) (e : exn) :
  fst (respond s cfg w) = Raise e → snd (respond s cfg w) = w.
Proof.
  destruct (respond_cases s cfg w) as [[_ Hw]|(_ & _ & Hr)]; [done|].
  rewrite Hr. discriminate.
Qed.

(** Either the request carries a text that [respond] answers, or the
    response is an error and nothing has changed. *)
Lemma bot_view_cases (request : HttpRequest) (w : world) :
  (∃ d s r,
     method request = "POST" ∧ body request = Ret (PDict d)
     ∧ assoc d "user_input" = Some (PStr s)
     ∧ fst (respond s smtp_config_instance w) = Ret r
     ∧ bot_view request w =
         ({| content := ("bot_response", r); status := 200 |},
          snd (respond s smtp_config_instance w)))
  ∨ (status (fst (bot_view request w)) ≠ 200%Z ∧ snd (bot_view request w) = w).
Proof.
  destruct (String.eqb_spec (method request) "POST") as [Hm|Hm].
  2:{ right. unfold bot_view.
      destruct (String.eqb_spec (method request) "POST"); [done|]. by split. }
  destruct (body request) as [data|e] eqn:Hb.
  2:{ right. unfold bot_view. rewrite Hm, Hb. step_m. by split. }
  destruct data as [| | | | |l|d];
    try (right; unfold bot_view; rewrite Hm, Hb; step_m; by split).
  rewrite (bot_view_dict request d w Hm Hb).
  destruct (assoc d "user_input") as [v|] eqn:Hd; [|right; by split].
  destruct v as [| | | |s| |]; simpl; try (right; by split).
  destruct (respond s smtp_config_instance w) as [[r|e] w'] eqn:Hr.
  - left. exists d, s, r. by rewrite Hr.
  - right. split; [done|]. simpl.
    pose proof (respond_raise_keeps s smtp_config_instance w e) as Hk.
    rewrite Hr in Hk. by apply Hk.
Qed.

(** X21.  [bot_view] answers with status 200 exactly for a POST request
    whose body decodes to an object with a text under ["user_input"] on
    which [respond] returns; the response then carries what [respond]
    returned under ["bot_response"], and the world is the one [respond]
    left. *)
Theorem ok_response_iff (request : HttpRequest) (w : world) :
  (status (fst (bot_view request w)) = 200%Z ↔
     method request = "POST"
     ∧ ∃ d s r, body request = Ret (PDict d)
                ∧ assoc d "user_input" = Some (PStr s)
                ∧ fst (respond s smtp_config_instance w) = Ret r)
  ∧ (∀ d s r,
       method request = "POST" →
       body request = Ret (PDict d) →
       assoc d "user_input" = Some (PStr s) →
       fst (respond s smtp_config_instance w) = Ret r →
       bot_view request w =
         ({| content := ("bot_response", r); status := 200 |},
          snd (respond s smtp_config_instance w))).
Proof.
  assert (∀ d s r,
       method request = "POST" →
       body request = Ret (PDict d) →
       assoc d "user_input" = Some (PStr s) →
       fst (respond s smtp_config_instance w) = Ret r →
       bot_view request w =
         ({| content := ("bot_response", r); status := 200 |},
          snd (respond s smtp_config_instance w))) as Hok.
  { intros d s r Hm Hb Hd Hr. rewrite (bot_view_dict request d w Hm Hb), Hd.
    simpl. destruct (respond s smtp_config_instance w) as [[r'|e] w'];
      simpl in *; congruence. }
  split; [|exact Hok]. split.
  - intros Hs.
    destruct (bot_view_cases request w) as [(d & s & r & Hm & Hb & Hd & Hr & _)|[Hne _]];
      [|done].
    split; [done|]. by exists d, s, r.
  - intros (Hm & d & s & r & Hb & Hd & Hr). by rewrite (Hok d s r).
Qed.

(** X22.  A request that is not answered with status 200 changes nothing:
    neither the knowledge base nor the ledger, and no mail is set out on. *)
Theorem failed_request_keeps_world (request : HttpRequest) (w : world) :
  status (fst (bot_view request w)) ≠ 200%Z → snd (bot_view request w) = w.
Proof.
  intros Hs.
  destruct (bot_view_cases request w) as [(d & s & r & _ & _ & _ & _ & Hv)|[_ Hw]];
    [|done].
  rewrite Hv in Hs. by destruct Hs.
Qed.

Lemma serve_as_calls (requests : list HttpRequest) (w : world) :
  ∃ cs, forallb (fun c => negb (direct_forward c)) cs = true
        ∧ serve requests w = run cs w.
Proof.
  revert w. induction requests as [|request requests IH]; intros w.
  - by exists [].
  - cbn [serve fold_left]. fold (serve requests (snd (bot_view request w))).
    destruct (bot_view_cases request w) as [(d & s & r & _ & _ & _ & _ & Hv)|[_ Hw]].
    + rewrite Hv. cbn [snd].
      destruct (IH (snd (respond s smtp_config_instance w))) as (cs & Hcs & Hrun).
      exists (Respond s smtp_config_instance :: cs). split; [done|].
      by rewrite Hrun.
    + rewrite Hw. apply IH.
Qed.

Lemma mailed_once_run (cs : list call) (w : world) :
  forallb (fun c => negb (direct_forward c)) cs = true →
  mailed_once w → mailed_once (run cs w).
Proof.
  revert w. induction cs as [|c cs IH]; intros w Hcs Hinv; [done|].
  cbn [forallb] in Hcs. apply andb_prop in Hcs as [Hc Hcs].
  apply negb_true_iff in Hc. simpl. apply IH; [done|].
  by apply mailed_once_step.
Qed.

Lemma ledger_in_db_run (cs : list call) (w : world) :
  forallb (fun c => negb (direct_forward c)) cs = true →
  (∀ q, has_record w q → is_Some (db w !! q)) →
  ∀ q, has_record (run cs w) q → is_Some (db (run cs w) !! q).
Proof.
  revert w. induction cs as [|c cs IH]; intros w Hcs Hinv; [done|].
  cbn [forallb] in Hcs. apply andb_prop in Hcs as [Hc Hcs].
  apply negb_true_iff in Hc. simpl. apply IH; [done|].
  by apply ledger_in_db_step.
Qed.

(** X23.  Whatever requests the module-level bot of [views.py] handles,
    starting from its initial state, it mails no question twice, and every
    question with a ledger record has an entry in the knowledge base. *)
Theorem served_at_most_once (requests : list HttpRequest) :
  NoDup (map msg_subject (smtp_attempts (serve requests initial)))
  ∧ ∀ q, has_record (serve requests initial) q →
         is_Some (db (serve requests initial) !! q).
Proof.
  destruct (serve_as_calls requests initial) as (cs & Hcs & ->).
  split.
  - apply (mailed_once_run cs initial Hcs).
    split; [apply NoDup_nil_2 | intros m []].
  - apply (ledger_in_db_run cs initial Hcs). intros q Hq. discriminate Hq.
Qed.

End HandlerFacts.

(** ** Further worked instances *)

Module MoreInstances.
Import Demo Scenarios.

Lemma greeting_reply_iff_witness :
  @analyze_greeting delivers (doc_of "hi thanks") = Some hello
  ∧ @analyze_greeting delivers (doc_of "well hello there") = Some hello.
Proof.
  split.
  - apply (proj2 (@greeting_reply_iff delivers (doc_of "hi thanks"))).
    left. exists "hi", ["thanks"]. split; reflexivity.
  - apply (proj2 (@greeting_reply_iff delivers (doc_of "well hello there"))).
    right. split; reflexivity.
Defined.

Lemma greeting_none_iff_witness :
  @analyze_greeting delivers (doc_of flight) = None
  ∧ @analyze_greeting delivers (doc_of EmptyString) = None.
Proof.
  split.
  - apply (proj2 (@greeting_none_iff delivers (doc_of flight))).
    split; reflexivity.
  - apply (proj2 (@greeting_none_iff delivers (doc_of EmptyString))).
    split; reflexivity.
Defined.

Lemma mission_before_vision_witness :
  @analyze_mission_vision delivers (doc_of "our Mission and Vision")
  = Some mission_statement.
Proof.
  apply (@mission_before_vision delivers (doc_of "our Mission and Vision")
           "our " " and vision").
  reflexivity.
Defined.

Lemma vision_and_none_iff_witness :
  @analyze_mission_vision delivers (doc_of "what is the vision") = Some vision_statement
  ∧ @analyze_mission_vision delivers (doc_of flight) = None.
Proof.
  split.
  - apply (proj2 (proj1 (@vision_and_none_iff delivers (doc_of "what is the vision")))).
    split; reflexivity.
  - apply (proj2 (proj2 (@vision_and_none_iff delivers (doc_of flight)))).
    split; reflexivity.
Defined.


Lemma scia_values_none_iff_witness :
  @analyze_scia_values delivers (doc_of flight) = None.
Proof.
  apply (proj2 (@scia_values_none_iff delivers (doc_of flight))).
  repeat split; reflexivity.
Defined.

Lemma scenario_lookup_witness :
  @get_scenario_for_value delivers "Punctuality"
  = "I don't have an answer for that, sorry."
  ∧ @get_scenario_for_value delivers "SAFETY"
    = " Safety is the foundation of everything we do.".
Proof.
  split.
  - apply (proj1 (proj2 (@scenario_lookup delivers "Punctuality"))).
    simpl. intros [Hc|[Hc|[Hc|[Hc|[]]]]]; discriminate Hc.
  - apply (proj2 (proj2 (@scenario_lookup delivers "SAFETY"))). reflexivity.
Defined.

Lemma respond_raises_iff_witness :
  fst (@respond short_pipeline flight cfg initial) = Raise too_long
  ∧ snd (@respond short_pipeline flight cfg initial) = initial.
Proof.
  destruct (@respond_raises_iff short_pipeline initial flight cfg too_long)
    as [Hiff Hkeep].
  assert (fst (@respond short_pipeline flight cfg initial) = Raise too_long) as Hr.
  { apply (proj2 Hiff). split; reflexivity. }
  split; [exact Hr | exact (Hkeep Hr)].
Defined.

Lemma db_entries_stay_witness :
  is_Some (db (@run delivers
                 [Respond flight cfg; ProvideAnswer flight "at noon";
                  MarkResolved flight; ForwardQueryToAdmin fares cfg]
                 (snd (@add_to_db fares "see the fare table" initial))) !! fares).
Proof.
  apply (@db_entries_stay delivers). by eexists.
Defined.

Lemma ledger_within_db_witness :
  is_Some (db (@run fails [Respond flight cfg; ProvideAnswer fares "see the fare table"]
                 initial) !! flight).
Proof.
  apply (@ledger_within_db fails
           [Respond flight cfg; ProvideAnswer fares "see the fare table"] initial).
  - reflexivity.
  - intros q Hq. discriminate Hq.
  - reflexivity.
Defined.

Lemma no_question_mailed_twice_witness :
  NoDup (map msg_subject
           (smtp_attempts
              (@run fails [Respond flight cfg; MarkResolved flight; Respond flight cfg;
                           Respond fares cfg; Respond flight cfg] initial)))
  ∧ length (smtp_attempts
              (@run fails [Respond flight cfg; MarkResolved flight; Respond flight cfg;
                           Respond fares cfg; Respond flight cfg] initial)) = 2.
Proof.
  split; [|reflexivity].
  exact (@no_question_mailed_twice fails
           [Respond flight cfg; MarkResolved flight; Respond flight cfg;
            Respond fares cfg; Respond flight cfg] eq_refl).
Defined.

Lemma pending_no_duplicates_witness :
  NoDup (pending (@run delivers
                    [ForwardQueryToAdmin flight cfg; ProvideAnswer flight "at noon";
                     MarkResolved flight; ForwardQueryToAdmin flight cfg;
                     Respond fares cfg] initial)).
Proof.
  apply (@pending_no_duplicates delivers). apply NoDup_nil_2.
Defined.

Lemma get_response_tracks_witness :
  fst (get_response flight (snd (provide_answer flight "at noon" initial)))
    = Ret "at noon"
  ∧ fst (get_response flight initial)
    = Ret "I don't have an answer for that, sorry.".
Proof.
  destruct (get_response_tracks initial flight "at noon") as (Ha & _ & Hnone).
  split; [exact Ha | exact (Hnone eq_refl)].
Defined.

Lemma has_unanswered_iff_witness :
  fst (@has_unanswered_queries (snd (@provide_answer flight "at noon" initial)))
  = Ret true.
Proof.
  apply (proj2 (@has_unanswered_iff (snd (@provide_answer flight "at noon" initial)))).
  exists flight. reflexivity.
Defined.

Lemma mark_resolved_frame_witness :
  let w := snd (@forward_query_to_admin delivers fares cfg
                  (snd (@provide_answer flight "at noon" initial))) in
  PyDict.get (unanswered_queries (snd (@mark_resolved fares w))) flight = Some "at noon"
  ∧ @mark_resolved fares initial = (Ret tt, initial).
Proof.
  intros w.
  destruct (@mark_resolved_frame w fares) as (_ & _ & _ & Hother & _ & _).
  destruct (@mark_resolved_frame initial fares) as (_ & _ & _ & _ & Habsent & _).
  split.
  - rewrite (Hother flight); [reflexivity | discriminate].
  - exact (Habsent eq_refl).
Defined.

Lemma insertion_order_witness :
  let w := snd (@provide_answer fares "see the fare table"
                  (snd (@provide_answer flight "at noon" initial))) in
  fst (@get_unanswered_queries (snd (@provide_answer flight "at one" w)))
    = Ret [flight; fares]
  ∧ fst (@get_unanswered_queries (snd (@forward_query_to_admin fails "lounge" cfg w)))
    = Ret [flight; fares; "lounge"].
Proof.
  intros w.
  destruct (@insertion_order delivers w flight "at one" cfg) as [Hp _].
  destruct (@insertion_order fails w "lounge" "at one" cfg) as [_ Hf].
  split; [exact Hp | exact Hf].
Defined.

Lemma sent_but_recorded_as_error_witness :
  PyDict.get (unanswered_queries (snd (@forward_query_to_admin quits flight cfg initial)))
    flight = Some "Error forwarding to admin. Please try again."
  ∧ length (log (snd (@forward_query_to_admin quits flight cfg initial))) = 2.
Proof.
  destruct (@sent_but_recorded_as_error quits initial flight cfg quit_refused
              eq_refl eq_refl) as (Hlog & Hrec & _).
  split; [exact Hrec | by rewrite Hlog].
Defined.

Lemma forward_frame_witness :
  let w := snd (@provide_answer fares "see the fare table" initial) in
  PyDict.get (unanswered_queries (snd (@forward_query_to_admin fails flight cfg w))) fares
  = Some "see the fare table".
Proof.
  intros w.
  destruct (@forward_frame fails w flight fares cfg) as [_ Hrec]; [discriminate|].
  rewrite Hrec. reflexivity.
Defined.

Lemma resolved_without_answer_witness :
  let w' := snd (@mark_resolved flight (snd (@respond fails flight cfg initial))) in
  @respond fails flight cfg w'
  = (Ret "Forwarded to admin's email. Waiting for response.", w').
Proof.
  exact (proj2 (@resolved_without_answer fails initial flight cfg eq_refl
                  (Instances.flight_unanswered _))).
Defined.

Lemma forward_after_resolve_witness :
  length (smtp_attempts
            (snd (@forward_query_to_admin delivers flight cfg
                    (snd (@mark_resolved flight
                            (snd (@forward_query_to_admin delivers flight cfg initial)))))))
  = 2.
Proof.
  rewrite (@forward_after_resolve delivers). reflexivity.
Defined.

Lemma ok_response_iff_witness :
  status (fst (@bot_view delivers (ask_text "hello") initial)) = 200%Z
  ∧ @bot_view delivers (ask_text "hello") initial
    = ({| content := ("bot_response", hello); status := 200 |}, initial).
Proof.
  destruct (@ok_response_iff delivers (ask_text "hello") initial) as [Hiff Hok].
  split.
  - apply (proj2 Hiff). split; [reflexivity|].
    exists [("user_input", PStr "hello")], "hello", hello. repeat split.
  - exact (Hok [("user_input", PStr "hello")] "hello" hello
             eq_refl eq_refl eq_refl eq_refl).
Defined.

Lemma failed_request_keeps_world_witness :
  snd (@bot_view delivers get_request initial) = initial
  ∧ snd (@bot_view short_pipeline (ask_text flight) initial) = initial.
Proof.
  split.
  - apply (@failed_request_keeps_world delivers). discriminate.
  - apply (@failed_request_keeps_world short_pipeline). discriminate.
Defined.

Lemma served_at_most_once_witness :
  NoDup (map msg_subject
           (smtp_attempts
              (@serve fails [ask_text flight; ask_text flight; get_request;
                             ask_text fares; ask_text flight] initial)))
  ∧ is_Some (db (@serve fails [ask_text flight; ask_text flight; get_request;
                               ask_text fares; ask_text flight] initial) !! flight).
Proof.
  destruct (@served_at_most_once fails
              [ask_text flight; ask_text flight; get_request;
               ask_text fares; ask_text flight]) as [Hnd Hdb].
  split; [exact Hnd | apply Hdb; reflexivity].
Defined.

End MoreInstances.
